(** * NiBetaSeries: the participant workflow layer ([nibetaseries/workflows/base.py])

    A shallow embedding of the two pieces of logic in [base.py]:

    - [_check_bs_len], the filter that drops every beta series with fewer
      than three betas, logs why, and raises when nothing is left;
    - [init_single_subject_wf], which wires the per-subject nipype graph and
      includes the atlas and the residual branches on demand.

    Python values are modelled as the code has them: paths are strings,
    image shapes are tuples of integers, the list handed to the filter is an
    object on a heap (it is overwritten through [beta_series_list[:] = ...]),
    warnings go to a log, and exceptions abort the computation. *)

From Stdlib Require Import ZArith Lia Ascii String.
From stdpp Require Import base option list gmap strings pretty.

Local Open Scope string_scope.
Local Open Scope Z_scope.
Local Open Scope list_scope.

(** ** Strings

    A Python string is taken as the sequence of its bytes.  The pattern of
    the filter only tells apart the newline, the ASCII letters and digits,
    and the characters of [desc-] and [_], so nothing is lost. *)

Definition newline : ascii := ascii_of_nat 10.

(** [strip_prefix p s] is the rest of [s] after the literal [p], when [s]
    starts with [p]. *)
Fixpoint strip_prefix (p s : string) : option string :=
  match p, s with
  | EmptyString, _ => Some s
  | String a p', String b s' => if Ascii.eqb a b then strip_prefix p' s' else None
  | String _ _, EmptyString => None
  end.

(** The text consumed between two positions of a scan: the prefix of [s]
    that is left of its suffix [rest]. *)
Definition consumed (s rest : string) : string :=
  String.substring 0 (String.length s - String.length rest) s.

(** ** The fragment of Python's [re] that the filter uses

    [re.match] anchors at the start of the string, explores alternatives by
    backtracking, and its repetitions are greedy.  The matcher below is the
    usual continuation-passing backtracking matcher: [k] is what remains to
    be matched, and a repetition first tries the longest run and gives
    characters back one at a time while [k] fails. *)
Module re.

Inductive charset :=
| Dot                               (* [.]: anything but a newline *)
| Ranges (rs : list (ascii * ascii)). (* [[a-bc-d]] *)

Definition in_range (c : ascii) (r : ascii * ascii) : bool :=
  (N_of_ascii r.1 <=? N_of_ascii c)%N && (N_of_ascii c <=? N_of_ascii r.2)%N.

Definition in_charset (cs : charset) (c : ascii) : bool :=
  match cs with
  | Dot => negb (Ascii.eqb c newline)
  | Ranges rs => existsb (in_range c) rs
  end.

Inductive regex :=
| Lit (l : string)                  (* literal text *)
| Star (cs : charset)               (* [cs*], greedy *)
| Plus (cs : charset)               (* [cs+], greedy *)
| Group (name : string) (r : regex) (* [(?P<name>r)] *)
| Seq (r1 r2 : regex).

(** A match object, reduced to what [groupdict()] returns. *)
Abbreviation groupdict := (gmap string string).

Fixpoint star {A} (cs : charset) (s : string) (k : string → option A) : option A :=
  match s with
  | String c s' =>
      if in_charset cs c then
        match star cs s' k with
        | Some m => Some m
        | None => k s
        end
      else k s
  | EmptyString => k s
  end.

Fixpoint run (r : regex) (s : string) (g : groupdict)
    (k : string → groupdict → option groupdict) : option groupdict :=
  match r with
  | Lit l =>
      match strip_prefix l s with
      | Some s' => k s' g
      | None => None
      end
  | Star cs => star cs s (λ s', k s' g)
  | Plus cs =>
      match s with
      | String c s' => if in_charset cs c then star cs s' (λ s'', k s'' g) else None
      | EmptyString => None
      end
  | Group name r' => run r' s g (λ s' g', k s' (<[name := consumed s s']> g'))
  | Seq r1 r2 => run r1 s g (λ s' g', run r2 s' g' k)
  end.

(** [re.match(pattern, string)]: [None] when the pattern does not match
    at the start of [string]. *)
Definition match_ (pattern : regex) (s : string) : option groupdict :=
  run pattern s ∅ (λ _ g, Some g).

End re.

(** [[0-9A-Za-z]] *)
Definition alnum : re.charset :=
  re.Ranges [("0"%char, "9"%char); ("A"%char, "Z"%char); ("a"%char, "z"%char)].

(** [".*desc-(?P<trial_type>[0-9A-Za-z]+)_.*"] *)
Definition trial_type_pattern : re.regex :=
  re.Seq (re.Star re.Dot)
    (re.Seq (re.Lit "desc-")
       (re.Seq (re.Group "trial_type" (re.Plus alnum))
          (re.Seq (re.Lit "_") (re.Star re.Dot)))).

(** ** Python values and effects

    The filter reads image headers, writes warnings to the root logger,
    overwrites the list object it is given and may raise.  A computation is
    a function from the state (the heap of list objects and the log) to an
    outcome and the state it leaves behind; an exception keeps the state
    reached when it was raised. *)

Inductive exn :=
| RuntimeError (msg : string)
| FileNotFoundError (file : string)  (* [nib.load] of a path where no file is *)
| ImageFileError (file : string)     (* [nib.load] of a file that is no image *)
| IndexError (msg : string)          (* [shape[-1]] of the empty tuple *)
| TypeError (msg : string)           (* the argument is not a list object *)
| OSError (msg : string).            (* nipype refusing a node *)

Inductive outcome (A : Type) :=
| Return (a : A)
| Raise (e : exn).
Arguments Return {A} a.
Arguments Raise {A} e.

(** A reference to a list object. *)
Abbreviation loc := nat.

Record state := State {
  heap : gmap loc (list string);  (* the list objects, by identity *)
  log : list string;              (* the warnings logged so far, oldest first *)
}.

Definition M (A : Type) : Type := state → outcome A * state.

#[global] Instance M_ret : MRet M := λ A a σ, (Return a, σ).

#[global] Instance M_bind : MBind M := λ A B f m σ,
  match m σ with
  | (Return a, σ') => f a σ'
  | (Raise e, σ') => (Raise e, σ')
  end.

Definition raise {A} (e : exn) : M A := λ σ, (Raise e, σ).

(** [logging.warning(msg)] *)
Definition logging_warning (msg : string) : M unit :=
  λ σ, (Return tt, State (heap σ) (log σ ++ [msg])).

(** Reading the items of the list object [l]. *)
Definition list_items (l : loc) : M (list string) :=
  λ σ, match heap σ !! l with
       | Some xs => (Return xs, σ)
       | None => (Raise (TypeError "object is not iterable"), σ)
       end.

(** [l[:] = xs]: the object keeps its identity, its items are replaced. *)
Definition slice_assign (l : loc) (xs : list string) : M unit :=
  λ σ, match heap σ !! l with
       | Some _ => (Return tt, State (<[l := xs]> (heap σ)) (log σ))
       | None => (Raise (TypeError "object does not support item assignment"), σ)
       end.

(** [str(x)] of a value that is a string or [None]. *)
Definition str_or_None (x : option string) : string := default "None" x.

(** ** The trial-count filter *)

(** What [nib.load] finds at a path: an image, of which only the shape is
    looked at, or a file that is no image (a text file, a file without a
    known extension). *)
Inductive file :=
| Image (shape : list Z)
| NotAnImage.

Section check_bs_len.

(** The files on disk, by path. *)
Variable images : gmap string file.

(** [nib.load(path).shape]: [nib.load] raises [FileNotFoundError] when no
    file is at the path and [ImageFileError] when the file there is not an
    image it can read. *)
Definition nib_load_shape (path : string) : M (list Z) :=
  match images !! path with
  | Some (Image shape) => mret shape
  | Some NotAnImage => raise (ImageFileError path)
  | None => raise (FileNotFoundError path)
  end.

(** [shape[-1]] *)
Definition last_dim (shape : list Z) : M Z :=
  match last shape with
  | Some n => mret n
  | None => raise (IndexError "tuple index out of range")
  end.

Definition min_size : Z := 3.

Definition unknown_trial_type_msg (file : string) : string :=
  "this file: " +:+ file +:+ " contains an unknown trial_type".

Definition too_few_trials_msg (min_size : Z) (trial_type : option string) (num : Z) : string :=
  "At least " +:+ pretty min_size +:+ " trials are needed "
  +:+ "for a beta series: " +:+ str_or_None trial_type +:+ " has " +:+ pretty num.

Definition check_beta_series (beta_series : string) (min_size : Z) : M bool :=
  shape ← nib_load_shape beta_series;
  size ← last_dim shape;
  if size <? min_size then
    trial_type ←
      match re.match_ trial_type_pattern beta_series with
      | Some mtch => mret (mtch !! "trial_type")
      | None =>
          logging_warning (unknown_trial_type_msg beta_series);;
          mret (Some "UNKNOWN")
      end;
    logging_warning (too_few_trials_msg min_size trial_type size);;
    mret false
  else mret true.

(** [[bs for bs in items if check_beta_series(bs, min_size=min_size)]] *)
Fixpoint comprehension (items : list string) : M (list string) :=
  match items with
  | [] => mret []
  | bs :: items' =>
      b ← check_beta_series bs min_size;
      rest ← comprehension items';
      mret (if b : bool then bs :: rest else rest)
  end.

Definition none_left_msg : string :=
  "None of the beta series have at least " +:+ pretty min_size +:+ " betas.".

Definition _check_bs_len (beta_series_list : loc) : M loc :=
  items ← list_items beta_series_list;
  kept ← comprehension items;
  slice_assign beta_series_list kept;;
  remaining ← list_items beta_series_list;
  match remaining with
  | [] => raise (RuntimeError none_left_msg)
  | _ :: _ => mret beta_series_list
  end.

End check_bs_len.

(** ** The nipype graph built for one subject

    Only what [init_single_subject_wf] itself does is modelled: which nodes
    it makes and which connections it passes to [workflow.connect].
    Building a node ([pe.Node], [pe.MapNode], a sub-workflow) does not put it
    into a workflow; [connect] does, for the two ends of every connection it
    is given, and the function adds nodes in no other way.  So the nodes of
    a workflow are the nodes its connections mention.  The checks [connect]
    performs on field names are nipype's and are left out. *)

Section nipype.

(** Python floats and the bold metadata dictionaries are carried around
    but never inspected. *)
Context {float metadata : Type}.

Inductive interface :=
| IdentityInterface (fields : list string)
| Function (function : string) (output_names : list string)
| CensorVolumes
| DerivativesDataSink (base_directory : string).

(** The values a node iterates over. *)
Inductive iterable :=
| Paths (files : list string)
| Metadata (dicts : list metadata).

(** [signal_scaling] is [False] or an axis. *)
Inductive scaling :=
| ScalingOff
| ScalingAxis (axis : Z).

(** The sub-workflows come from [init_betaseries_wf] ([workflows/model.py])
    and [init_correlation_wf] ([workflows/analysis.py]); what they contain is
    not this module's business, so each is kept as the call that built it. *)
Inductive subworkflow :=
| init_betaseries_wf (estimator : string) (fir_delays : option (list Z))
    (hrf_model : string) (high_pass : float) (norm_betas : bool)
    (selected_confounds : option (list string)) (signal_scaling : scaling)
    (smoothing_kernel : option float)
| init_correlation_wf.

Inductive node :=
| Node (iface : interface) (name : string)
    (iterables : list (string * iterable)) (synchronize : bool)
    (inputs : list (string * option string))
| MapNode (iface : interface) (iterfield : list string) (name : string)
| SubWorkflow (wf : subworkflow).

(** One entry of the list given to [workflow.connect]:
    [(source, destination, [(source field, destination field), ...])]. *)
Definition connection : Type := node * node * list (string * string).

Record workflow := Workflow {
  wf_name : string;
  connections : list connection;
}.

Definition connect (wf : workflow) (cs : list connection) : workflow :=
  Workflow (wf_name wf) (connections wf ++ cs).

Definition wf_nodes (wf : workflow) : list node :=
  c ← connections wf; [c.1.1; c.1.2].

(** Truth value of an argument that is a string or [None]. *)
Definition truthy (x : option string) : bool :=
  match x with
  | Some s => negb (String.eqb s "")
  | None => false
  end.

(** The node objects a function has built, and the workflow it has put
    together from them. *)
Record assembly := Assembly {
  built : list node;
  assembled : workflow;
}.

Section single_subject.

Variables (estimator : string) (atlas_img atlas_lut : option string)
  (bold_metadata_list : list metadata)
  (brainmask_list confound_tsv_list events_tsv_list : list string)
  (fir_delays : option (list Z)) (hrf_model : string) (high_pass : float)
  (name : string) (norm_betas : bool) (output_dir : string)
  (preproc_img_list : list string) (return_residuals : bool)
  (selected_confounds : option (list string)) (signal_scaling : scaling)
  (smoothing_kernel : option float).

(** The node objects.  All of them but [check_beta_series_list],
    [censor_volumes] and [ds_residual_file] are built before the function
    looks at [atlas_img], [atlas_lut] or [return_residuals].

    [input_node] is one object: the two [inputs] assigned in the atlas
    branch are seen through every connection that mentions the node, also
    those made before the branch. *)
Definition input_node : node :=
  Node (IdentityInterface ["atlas_img"; "atlas_lut"; "bold_metadata"; "brainmask";
                           "confound_tsv"; "events_tsv"; "preproc_img"])
    "input_node"
    [("brainmask", Paths brainmask_list);
     ("confound_tsv", Paths confound_tsv_list);
     ("events_tsv", Paths events_tsv_list);
     ("preproc_img", Paths preproc_img_list);
     ("bold_metadata", Metadata bold_metadata_list)]
    true
    (if truthy atlas_img && truthy atlas_lut
     then [("atlas_img", atlas_img); ("atlas_lut", atlas_lut)]
     else []).

Definition output_node : node :=
  Node (IdentityInterface ["correlation_matrix"; "correlation_fig";
                           "betaseries_file"; "residual_file"])
    "output_node" [] false [].

Definition betaseries_wf : node :=
  SubWorkflow (init_betaseries_wf estimator fir_delays hrf_model high_pass
                 norm_betas selected_confounds signal_scaling smoothing_kernel).

Definition correlation_wf : node := SubWorkflow init_correlation_wf.

Definition ds_correlation_matrix : node :=
  MapNode (DerivativesDataSink output_dir) ["in_file"] "ds_correlation_matrix".

Definition ds_correlation_fig : node :=
  MapNode (DerivativesDataSink output_dir) ["in_file"] "ds_correlation_fig".

Definition ds_betaseries_file : node :=
  MapNode (DerivativesDataSink output_dir) ["in_file"] "ds_betaseries_file".

Definition check_beta_series_list : node :=
  Node (Function "_check_bs_len" ["beta_series_list"]) "check_beta_series_list"
    [] false [].

Definition censor_volumes : node :=
  MapNode CensorVolumes ["timeseries_file"] "censor_volumes".

Definition ds_residual_file : node :=
  MapNode (DerivativesDataSink output_dir) ["in_file"] "ds_residual_file".

(** The three lists handed to [workflow.connect]. *)
Definition betaseries_connections : list connection :=
  [(input_node, betaseries_wf,
      [("preproc_img", "input_node.bold_file");
       ("events_tsv", "input_node.events_file");
       ("brainmask", "input_node.bold_mask_file");
       ("confound_tsv", "input_node.confounds_file");
       ("bold_metadata", "input_node.bold_metadata")]);
   (betaseries_wf, output_node,
      [("output_node.betaseries_files", "betaseries_file")]);
   (input_node, ds_betaseries_file, [("preproc_img", "source_file")]);
   (output_node, ds_betaseries_file, [("betaseries_file", "in_file")])].

Definition atlas_connections : list connection :=
  [(input_node, censor_volumes, [("brainmask", "mask_file")]);
   (betaseries_wf, censor_volumes,
      [("output_node.betaseries_files", "timeseries_file")]);
   (censor_volumes, check_beta_series_list,
      [("censored_file", "beta_series_list")]);
   (check_beta_series_list, correlation_wf,
      [("beta_series_list", "input_node.betaseries_files")]);
   (input_node, correlation_wf,
      [("atlas_img", "input_node.atlas_file");
       ("atlas_lut", "input_node.atlas_lut")]);
   (correlation_wf, output_node,
      [("output_node.correlation_matrix", "correlation_matrix");
       ("output_node.correlation_fig", "correlation_fig")]);
   (input_node, ds_correlation_matrix, [("preproc_img", "source_file")]);
   (output_node, ds_correlation_matrix, [("correlation_matrix", "in_file")]);
   (input_node, ds_correlation_fig, [("preproc_img", "source_file")]);
   (output_node, ds_correlation_fig, [("correlation_fig", "in_file")])].

Definition residual_connections : list connection :=
  [(betaseries_wf, output_node,
      [("output_node.residual_file", "residual_file")]);
   (output_node, ds_residual_file, [("residual_file", "in_file")]);
   (input_node, ds_residual_file, [("preproc_img", "source_file")])].

Definition init_single_subject_wf : workflow :=
  let workflow := Workflow name [] in
  let workflow := connect workflow betaseries_connections in
  let workflow :=
    if truthy atlas_img && truthy atlas_lut
    then connect workflow atlas_connections
    else workflow in
  let workflow :=
    if return_residuals
    then connect workflow residual_connections
    else workflow in
  workflow.

(** The function once more, step by step, keeping beside the workflow the
    node objects it has built so far, in the order in which it builds
    them.  The correlation sub-workflow and the two correlation sinks are
    built before the atlas is looked at; the count filter and the
    censoring node inside the atlas branch; the residual sink inside the
    residual branch. *)
Definition init_single_subject_wf_steps : assembly :=
  let workflow := Workflow name [] in
  let built := [input_node; output_node; betaseries_wf; correlation_wf;
                ds_correlation_matrix; ds_correlation_fig; ds_betaseries_file] in
  let workflow := connect workflow betaseries_connections in
  let '(Assembly built workflow) :=
    if truthy atlas_img && truthy atlas_lut
    then Assembly (built ++ [check_beta_series_list; censor_volumes])
           (connect workflow atlas_connections)
    else Assembly built workflow in
  let '(Assembly built workflow) :=
    if return_residuals
    then Assembly (built ++ [ds_residual_file])
           (connect workflow residual_connections)
    else Assembly built workflow in
  Assembly built workflow.

End single_subject.

End nipype.

(** ** [os.path.join] (POSIX)

    [posixpath.join(a, *p)]: a component that starts with the separator
    replaces what was joined so far; otherwise it is appended, after a
    separator unless the path so far is empty or ends with one. *)
Module os.
Module path.

Definition sep : ascii := "/"%char.

Definition startswith_sep (s : string) : bool :=
  match s with
  | String c _ => Ascii.eqb c sep
  | EmptyString => false
  end.

Fixpoint endswith_sep (s : string) : bool :=
  match s with
  | EmptyString => false
  | String c EmptyString => Ascii.eqb c sep
  | String _ s' => endswith_sep s'
  end.

Definition join_step (path b : string) : string :=
  if startswith_sep b then b
  else if String.eqb path "" || endswith_sep path then path +:+ b
  else path +:+ String sep "" +:+ b.

Definition join (a : string) (p : list string) : string := foldl join_step a p.

End path.
End os.

(** ** The participant workflow

    [init_nibetaseries_participant_wf] makes the work directory, opens the
    BIDS layout, indexes the bold metadata when it starts a new database,
    and adds one single-subject workflow per subject.  [BIDSLayout],
    [BIDSLayoutIndexerPatch] and [os.makedirs] act on the file system: the
    calls are recorded, in order.  [collect_data] ([workflows/utils.py])
    is a parameter.  [Workflow.add_nodes] of nipype refuses a node whose
    name a node of the workflow already has: the function then raises, after
    the calls it has made, and returns no workflow. *)

Section participant.

Context {float json : Type}.

(** One entry of what [collect_data] returns: the files of one run, under
    the keys [brainmask], [confounds], [events], [preproc], [metadata]. *)
Record run_files := RunFiles {
  brainmask : string;
  confounds : string;
  events : string;
  preproc : string;
  metadata : json;
}.

(** [BIDSLayout(root, derivatives=..., index_metadata=..., database_file=...,
    reset_database=...)] *)
Record BIDSLayout := {
  root : string;
  derivatives : string;
  index_metadata : bool;
  database_file : string;
  reset_database : bool;
}.

Inductive call :=
| Makedirs (name : string) (exist_ok : bool)
| NewBIDSLayout (layout : BIDSLayout)
| IndexMetadata (layout : BIDSLayout) (extension : list string) (suffix : string).

(** A single-subject workflow as the participant workflow holds it: with
    the crash directory written into its configuration, a copy of which
    every node of the workflow gets. *)
Record subject_wf := SubjectWf {
  single_subject_wf : @workflow float json;
  crashdump_dir : string;
}.

Record participant_wf := ParticipantWf {
  pwf_name : string;
  base_dir : string;
  desc : string;
  postdesc : string;
  subject_wfs : list subject_wf;
}.

(** A [for] loop over a list whose body may raise. *)
Fixpoint for_in {A S : Type} (l : list A) (body : S → A → outcome S) (s : S) :
    outcome S :=
  match l with
  | [] => Return s
  | x :: l =>
      match body s x with
      | Return s => for_in l body s
      | Raise e => Raise e
      end
  end.

(** The double quote, which the message of nipype puts around a name. *)
Definition dq : string := String "034"%char "".

Definition duplicate_node_name_msg (name : string) : string :=
  "Duplicate node name " +:+ dq +:+ name +:+ dq +:+ " found.".

(** [Workflow._check_nodes(nodes)], given the names of the nodes the
    workflow has: every node at hand is a workflow of this function, added to
    the participant workflow itself. *)
Fixpoint _check_nodes (node_names : list string) (nodes : list subject_wf) :
    outcome unit :=
  match nodes with
  | [] => Return ()
  | node :: nodes =>
      let name := wf_name (single_subject_wf node) in
      if bool_decide (name ∈ node_names)
      then Raise (OSError (duplicate_node_name_msg name))
      else _check_nodes (node_names ++ [name]) nodes
  end.

(** [Workflow.add_nodes(nodes)] on the nodes [graph] of a workflow. *)
Definition add_nodes (graph nodes : list subject_wf) : outcome (list subject_wf) :=
  match _check_nodes ((wf_name ∘ single_subject_wf) <$> graph) nodes with
  | Return _ => Return (graph ++ nodes)
  | Raise e => Raise e
  end.

(** The versions the boilerplate text quotes. *)
Variables (nibs_ver nipype_ver pybids_ver niworkflows_ver nibabel_ver
           pandas_ver numpy_ver : string).

(** [collect_data(layout, subject_label, task=, run=, ses=, space=,
    description=)] *)
Variable collect_data :
  BIDSLayout → string → option string → option string → option string →
  option string → option string → list run_files.

Definition nl : string := String newline "".

Definition participant_desc : string :=
  nl +:+ "Results included in this manuscript come from modeling" +:+ nl
  +:+ "performed using *NiBetaSeries* " +:+ nibs_ver +:+ " [@Kent2018]," +:+ nl
  +:+ "which is based on *Nipype* " +:+ nipype_ver
  +:+ " [@Gorgolewski2011; @Gorgolewski2018]." +:+ nl.

Definition participant_postdesc : string :=
  nl +:+ nl +:+ "### Software Dependencies" +:+ nl +:+ nl
  +:+ "Additional libraries used in the NiBetaSeries workflow include" +:+ nl
  +:+ "*Pybids* " +:+ pybids_ver +:+ " [@Yarkoni2019], *Niworkflows* "
  +:+ niworkflows_ver +:+ "," +:+ nl
  +:+ "*Nibabel* " +:+ nibabel_ver +:+ ", *Pandas* " +:+ pandas_ver
  +:+ " [@McKinney2010], and" +:+ nl
  +:+ "*Numpy* " +:+ numpy_ver +:+ " [@VanDerWalt2011; @Oliphant2006]." +:+ nl
  +:+ nl +:+ "### Copyright Waiver" +:+ nl
  +:+ "The above boilerplate text was automatically generated by NiBetaSeries" +:+ nl
  +:+ "with the express intention that users should copy and paste this" +:+ nl
  +:+ "text into their manuscripts *unchanged*." +:+ nl
  +:+ "It is released under the [CC0]"
  +:+ "(https://creativecommons.org/publicdomain/zero/1.0/) license." +:+ nl
  +:+ nl +:+ "### References" +:+ nl.

Definition init_nibetaseries_participant_wf
    (estimator : string) (atlas_img atlas_lut : option string) (bids_dir : string)
    (database_path : option string) (derivatives_pipeline_dir : string)
    (exclude_description_label : option string)
    (fir_delays : option (list Z)) (hrf_model : string) (high_pass : float)
    (norm_betas : bool) (output_dir : string) (return_residuals : bool)
    (run_label : option string) (selected_confounds : option (list string))
    (session_label : option string) (signal_scaling : scaling)
    (smoothing_kernel : option float) (space_label : option string)
    (subject_list : list string) (task_label description_label : option string)
    (work_dir : string) : outcome participant_wf * list call :=
  let base_dir := os.path.join work_dir ["NiBetaSeries_work"] in
  let '(database_path, reset_database) :=
    match database_path with
    | None => (os.path.join work_dir ["dbcache"], true)
    | Some database_path => (database_path, false)
    end in
  let layout :=
    {| root := bids_dir; derivatives := derivatives_pipeline_dir;
       index_metadata := false; database_file := database_path;
       reset_database := reset_database |} in
  let calls :=
    [Makedirs base_dir true; NewBIDSLayout layout]
    ++ (if reset_database
        then [IndexMetadata layout ["nii"; "nii.gz"; "json"] "bold"]
        else []) in
  let nodes :=
    for_in subject_list
      (λ nodes subject_label,
         let subject_data :=
           collect_data layout subject_label task_label run_label session_label
             space_label description_label in
         let brainmask_list := brainmask <$> subject_data in
         let confound_tsv_list := confounds <$> subject_data in
         let events_tsv_list := events <$> subject_data in
         let preproc_img_list := preproc <$> subject_data in
         let bold_metadata_list := metadata <$> subject_data in
         let single_subject_wf :=
           SubjectWf
             (init_single_subject_wf estimator atlas_img atlas_lut
                bold_metadata_list brainmask_list confound_tsv_list
                events_tsv_list fir_delays hrf_model high_pass
                ("single_subject" +:+ subject_label +:+ "_wf") norm_betas
                output_dir preproc_img_list return_residuals selected_confounds
                signal_scaling smoothing_kernel)
             (os.path.join output_dir
                ["nibetaseries"; "sub-" +:+ subject_label; "log"]) in
         add_nodes nodes [single_subject_wf])
      [] in
  (match nodes with
   | Return nodes =>
       Return (ParticipantWf "nibetaseries_participant_wf" base_dir
                 participant_desc participant_postdesc nodes)
   | Raise e => Raise e
   end,
   calls).

End participant.

(** ** What the filter is expected to compute

    Pure descriptions of one call, used to state the theorems: the trial
    count of an artifact, whether it is kept, and the warnings it causes. *)

(** The trial count of an artifact: the trailing dimension of its image. *)
Definition trial_count (images : gmap string file) (path : string) : option Z :=
  match images !! path with
  | Some (Image shape) => last shape
  | _ => None
  end.

Definition retained (images : gmap string file) (path : string) : bool :=
  match trial_count images path with
  | Some n => bool_decide (min_size ≤ n)
  | None => false
  end.

(** The label an exclusion warning uses for [path]. *)
Definition label (path : string) : option string :=
  match re.match_ trial_type_pattern path with
  | Some mtch => mtch !! "trial_type"
  | None => Some "UNKNOWN"
  end.

Definition warnings_for (images : gmap string file) (path : string) : list string :=
  match trial_count images path with
  | Some n =>
      if bool_decide (min_size ≤ n) then []
      else
        match re.match_ trial_type_pattern path with
        | Some _ => []
        | None => [unknown_trial_type_msg path]
        end ++ [too_few_trials_msg min_size (label path) n]
  | None => []
  end.

(** Every character of [s] is in the class [cs]. *)
Fixpoint all_in (cs : re.charset) (s : string) : bool :=
  match s with
  | EmptyString => true
  | String c s' => re.in_charset cs c && all_in cs s'
  end.

(** What is left of the pattern once the leading [.*] has picked where the
    [desc-] segment starts. *)
Definition segment : re.regex :=
  re.Seq (re.Lit "desc-")
    (re.Seq (re.Group "trial_type" (re.Plus alnum))
       (re.Seq (re.Lit "_") (re.Star re.Dot))).

(** The list object [l] after a run. *)
Definition items_after {A} (r : outcome A * state) (l : loc) : option (list string) :=
  heap r.2 !! l.

(** How a node is told apart: by the name it was given, a sub-workflow by
    the function that builds it. *)
Definition node_label {float metadata} (n : @node float metadata) : string :=
  match n with
  | Node _ name _ _ _ => name
  | MapNode _ _ name => name
  | SubWorkflow (init_betaseries_wf _ _ _ _ _ _ _ _) => "init_betaseries_wf"
  | SubWorkflow init_correlation_wf => "init_correlation_wf"
  end.

(** The node runs the [CensorVolumes] interface. *)
Definition censors {float metadata} (n : @node float metadata) : bool :=
  match n with
  | Node CensorVolumes _ _ _ _ | MapNode CensorVolumes _ _ => true
  | _ => false
  end.

(** The nodes a list of connections mentions. *)
Definition nodes_of {float metadata}
    (cs : list (@connection float metadata)) : list node :=
  c ← cs; [c.1.1; c.1.2].

(** The edges of a workflow, by the labels of their ends. *)
Definition edges {float metadata} (wf : @workflow float metadata)
    : list (string * string) :=
  (λ c, (node_label c.1.1, node_label c.1.2)) <$> connections wf.

(** A connection with its two nodes replaced by their labels. *)
Definition connection_label {float metadata}
    (c : @connection float metadata) : string * string * list (string * string) :=
  (node_label c.1.1, node_label c.1.2, c.2).

(** The directory a derivatives sink writes under. *)
Definition sink_directory {float metadata} (n : @node float metadata) : option string :=
  match n with
  | Node (DerivativesDataSink d) _ _ _ _ | MapNode (DerivativesDataSink d) _ _ => Some d
  | _ => None
  end.

(** The input fields that connections feed: the label of the node and the
    name of the field, once per connection. *)
Definition fed_ports {float metadata} (wf : @workflow float metadata)
    : list (string * string) :=
  c ← connections wf; (λ f, (node_label c.1.2, f.2)) <$> c.2.

(** The stage of a node in the run of a workflow. *)
Definition stage {float metadata} (n : @node float metadata) : nat :=
  let l := node_label n in
  if String.eqb l "input_node" then 0
  else if String.eqb l "init_betaseries_wf" then 1
  else if String.eqb l "censor_volumes" then 2
  else if String.eqb l "check_beta_series_list" then 3
  else if String.eqb l "init_correlation_wf" then 4
  else if String.eqb l "output_node" then 5
  else 6.

(** The connections of a workflow field by field: source node and field,
    destination node and field. *)
Definition wires {float metadata} (wf : @workflow float metadata)
    : list (node * string * node * string) :=
  c ← connections wf; (λ f, (c.1.1, f.1, c.1.2, f.2)) <$> c.2.




(** ** Example data *)

Definition nested_file : string :=
  "/data/desc-FACES_run1/sub-01_betaseries.nii.gz".
Definition twice_file : string :=
  "sub-01_desc-FACES_desc-HOUSES_betaseries.nii.gz".

Definition faces_file : string := "sub-01_desc-FACES_betaseries.nii.gz".
Definition houses_file : string := "sub-01_desc-HOUSES_betaseries.nii.gz".
Definition unlabelled_file : string := "sub-01_betaseries_x.nii.gz".

Definition example_images : gmap string file :=
  {[ faces_file := Image [64; 64; 36; 2];
     houses_file := Image [64; 64; 36; 5];
     unlabelled_file := Image [64; 64; 36; 1] ]}.

(** One list object, at address [0], and an empty log. *)
Definition state_of (items : list string) : state :=
  State {[ 0%nat := items ]} [].

(** The workflow of the docstring of [init_single_subject_wf], with the
    atlas and the residual flag left open. *)
Definition sample_wf (atlas_img atlas_lut : option string)
    (return_residuals : bool) : @workflow Z unit :=
  init_single_subject_wf "lss" atlas_img atlas_lut [tt] ["mask.nii.gz"]
    ["confounds.tsv"] ["events.tsv"] None "glover" 0 "subtest" false "."
    ["preproc.nii.gz"] return_residuals (Some []) (ScalingAxis 0) None.

Definition sample_steps (atlas_img atlas_lut : option string)
    (return_residuals : bool) : @assembly Z unit :=
  init_single_subject_wf_steps "lss" atlas_img atlas_lut [tt] ["mask.nii.gz"]
    ["confounds.tsv"] ["events.tsv"] None "glover" 0 "subtest" false "."
    ["preproc.nii.gz"] return_residuals (Some []) (ScalingAxis 0) None.

(** A layout with two runs per subject, and the participant workflow built
    on it. *)
Definition sample_collect_data (layout : BIDSLayout) (subject_label : string)
    (task run ses space description : option string) : list (@run_files unit) :=
  (λ r, RunFiles ("sub-" +:+ subject_label +:+ "_run-" +:+ r +:+ "_mask.nii.gz")
          ("sub-" +:+ subject_label +:+ "_run-" +:+ r +:+ "_confounds.tsv")
          ("sub-" +:+ subject_label +:+ "_run-" +:+ r +:+ "_events.tsv")
          ("sub-" +:+ subject_label +:+ "_run-" +:+ r +:+ "_bold.nii.gz") tt)
  <$> ["1"; "2"].

Definition sample_participant (database_path : option string)
    (subject_list : list string) : outcome (@participant_wf Z unit) * list call :=
  init_nibetaseries_participant_wf "0.6.0" "1.4.2" "0.9.5" "1.0.4" "3.0.1"
    "1.0.1" "1.18.1" sample_collect_data "lss" None None "/data/bids" database_path
    "/data/bids/derivatives/fmriprep" None None "glover" 0 false "/out" false
    None (Some []) None (ScalingAxis 0) None None subject_list None None "/work".

(** The exception that reading the trial count of [path] ends in, when
    there is no file at the path, the file is no image, or the image has
    the empty shape. *)
Definition read_error (images : gmap string file) (path : string) : exn :=
  match images !! path with
  | None => FileNotFoundError path
  | Some NotAnImage => ImageFileError path
  | Some (Image _) => IndexError "tuple index out of range"
  end.

(** ** Theorems *)

Ltac unfold_M :=
  unfold mbind, M_bind, mret, M_ret, raise, logging_warning, list_items,
    slice_assign in *.

(** *** The matcher *)

Lemma string_app_nil (s : string) : "" +:+ s = s.
Proof. reflexivity. Qed.

Lemma string_app_cons c (a b : string) : String c a +:+ b = String c (a +:+ b).
Proof. reflexivity. Qed.

Lemma string_length_app (a b : string) :
  String.length (a +:+ b) = (String.length a + String.length b)%nat.
Proof.
  induction a as [|c a IH]; [done|]. rewrite string_app_cons. simpl. by rewrite IH.
Qed.

Lemma consumed_app (x rest : string) : consumed (x +:+ rest) rest = x.
Proof.
  unfold consumed.
  replace (String.length (x +:+ rest) - String.length rest)%nat
    with (String.length x) by (rewrite string_length_app; lia).
  induction x as [|c x IH]; rewrite ?string_app_nil, ?string_app_cons; simpl.
  - by destruct rest.
  - by rewrite IH.
Qed.

Lemma all_in_cons cs c s :
  all_in cs (String c s) = re.in_charset cs c && all_in cs s.
Proof. reflexivity. Qed.

Lemma star_const {A} cs s (m : A) : re.star cs s (λ _, Some m) = Some m.
Proof.
  induction s as [|c s IH]; simpl; [done|].
  destruct (re.in_charset cs c); [by rewrite IH|done].
Qed.

Lemma star_ext {A} cs s (k1 k2 : string → option A) :
  (∀ s', k1 s' = k2 s') → re.star cs s k1 = re.star cs s k2.
Proof.
  intros Hk. induction s as [|c s IH]; simpl; [done|]. by rewrite IH, Hk.
Qed.

Lemma star_cons {A} cs c s (k : string → option A) :
  re.star cs (String c s) k
  = if re.in_charset cs c then
      match re.star cs s k with
      | Some m => Some m
      | None => k (String c s)
      end
    else k (String c s).
Proof. reflexivity. Qed.


(** Greedy: a success further to the right is preferred. *)
Lemma star_app_Some {A} cs pre s (k : string → option A) m :
  all_in cs pre = true →
  re.star cs s k = Some m →
  re.star cs (pre +:+ s) k = Some m.
Proof.
  intros Hpre Hs. induction pre as [|c pre IH]; [done|].
  rewrite string_app_cons. simpl in *.
  apply andb_true_iff in Hpre as [-> Hpre]. by rewrite IH.
Qed.

(** Backtracking: with no success to the right, nor at any position inside
    [pre] but the first, the repetition fails or stops at the first. *)
Lemma star_app_None {A} cs pre s (k : string → option A) :
  (∀ p1 p2, pre = p1 +:+ p2 → p2 ≠ "" → k (p2 +:+ s) = None) →
  re.star cs s k = None →
  re.star cs (pre +:+ s) k = None.
Proof.
  intros Hk Hs. induction pre as [|c pre IH]; [done|].
  assert (k (String c (pre +:+ s)) = None) as Hhere.
  { by apply (Hk "" (String c pre)). }
  rewrite string_app_cons. simpl. rewrite IH, Hhere.
  - by destruct (re.in_charset cs c).
  - intros p1 p2 -> Hne. by apply (Hk (String c p1) p2).
Qed.

Lemma strip_prefix_app p s : strip_prefix p (p +:+ s) = Some s.
Proof.
  induction p as [|c p IH]; [done|].
  rewrite string_app_cons. simpl. by rewrite Ascii.eqb_refl.
Qed.

(** The defining equations of [re.run], for rewriting. *)
Lemma run_Lit l s g k :
  re.run (re.Lit l) s g k
  = match strip_prefix l s with Some s' => k s' g | None => None end.
Proof. reflexivity. Qed.

Lemma run_Star cs s g k :
  re.run (re.Star cs) s g k = re.star cs s (λ s', k s' g).
Proof. reflexivity. Qed.

Lemma run_Plus cs c s g k :
  re.run (re.Plus cs) (String c s) g k
  = if re.in_charset cs c then re.star cs s (λ s', k s' g) else None.
Proof. reflexivity. Qed.

Lemma run_Group name r s g k :
  re.run (re.Group name r) s g k
  = re.run r s g (λ s' g', k s' (<[name := consumed s s']> g')).
Proof. reflexivity. Qed.

Lemma run_Seq r1 r2 s g k :
  re.run (re.Seq r1 r2) s g k = re.run r1 s g (λ s' g', re.run r2 s' g' k).
Proof. reflexivity. Qed.

Lemma match_is_star s :
  re.match_ trial_type_pattern s
  = re.star re.Dot s (λ s', re.run segment s' ∅ (λ _ g, Some g)).
Proof. reflexivity. Qed.

(** The segment read at the position where it starts. *)
Lemma run_segment s :
  re.run segment s ∅ (λ _ g, Some g)
  = match strip_prefix "desc-" s with
    | Some (String c s') =>
        if re.in_charset alnum c then
          re.star alnum s' (λ rest,
            match strip_prefix "_" rest with
            | Some _ => Some {["trial_type" := consumed (String c s') rest]}
            | None => None
            end)
        else None
    | _ => None
    end.
Proof.
  unfold segment. rewrite run_Seq, run_Lit.
  destruct (strip_prefix "desc-" s) as [[|c s']|]; [done| |done].
  rewrite run_Seq, run_Group, run_Plus.
  destruct (re.in_charset alnum c); [|done].
  apply star_ext. intros rest. rewrite run_Seq, run_Lit.
  destruct (strip_prefix "_" rest) as [s4|]; [|done].
  by rewrite run_Star, star_const, insert_empty.
Qed.

Lemma segment_hit lab post :
  all_in alnum lab = true → lab ≠ "" →
  re.run segment ("desc-" +:+ lab +:+ "_" +:+ post) ∅ (λ _ g, Some g)
  = Some {["trial_type" := lab]}.
Proof.
  intros Hlab Hne. destruct lab as [|c lab]; [done|].
  rewrite all_in_cons in Hlab. apply andb_true_iff in Hlab as [Hc Hlab].
  rewrite run_segment, strip_prefix_app, string_app_cons, Hc.
  apply star_app_Some; [done|].
  rewrite (string_app_cons "_"%char "" post), string_app_nil.
  cbn -[consumed String.append].
  change (String "_" post) with ("_" +:+ post).
  by rewrite <- string_app_cons, consumed_app.
Qed.


Lemma string_app_assoc (a b c : string) : (a +:+ b) +:+ c = a +:+ (b +:+ c).
Proof.
  induction a as [|x a IH]; [done|]. rewrite !string_app_cons. by rewrite IH.
Qed.

Lemma strip_prefix_cons a p b s :
  strip_prefix (String a p) (String b s)
  = if Ascii.eqb a b then strip_prefix p s else None.
Proof. reflexivity. Qed.

Ltac split_eqb :=
  rewrite ?string_app_cons, ?string_app_nil, ?strip_prefix_cons;
  repeat (match goal with
          | |- context [Ascii.eqb ?a ?b] =>
              destruct (Ascii.eqb_spec a b); [subst|done]
          end; rewrite ?strip_prefix_cons).

(** No [desc-] can start inside a label or at the underscore closing it. *)
Lemma no_desc_in_label x post :
  all_in alnum x = true → strip_prefix "desc-" (x +:+ "_" +:+ post) = None.
Proof.
  intros Hx.
  do 5 (destruct x as [|? x]; [by split_eqb|]).
  split_eqb. by vm_compute in Hx.
Qed.

Lemma suffix_of_label x p1 p2 :
  all_in alnum x = true → x +:+ "_" = p1 +:+ p2 → p2 ≠ "" →
  ∃ x2, p2 = x2 +:+ "_" ∧ all_in alnum x2 = true.
Proof.
  revert p1. induction x as [|c x IH]; intros p1 Hx Heq Hne.
  - destruct p1 as [|c1 p1].
    + exists "". by rewrite string_app_nil in Heq.
    + rewrite string_app_nil, string_app_cons in Heq. injection Heq as _ Heq.
      destruct p1; [by rewrite string_app_nil in Heq|done].
  - destruct p1 as [|c1 p1].
    + exists (String c x). by rewrite string_app_nil in Heq.
    + rewrite !string_app_cons in Heq. injection Heq as _ Heq.
      rewrite all_in_cons in Hx. apply andb_true_iff in Hx as [_ Hx]. eauto.
Qed.

(** Inside a [desc-<label>_] segment no second segment starts. *)
Lemma segment_miss lab post p1 p2 :
  all_in alnum lab = true →
  "desc-" +:+ lab +:+ "_" = p1 +:+ p2 → p1 ≠ "" → p2 ≠ "" →
  re.run segment (p2 +:+ post) ∅ (λ _ g, Some g) = None.
Proof.
  intros Hlab Heq Hp1 Hp2. rewrite run_segment.
  assert (strip_prefix "desc-" (p2 +:+ post) = None) as ->; [|done].
  rewrite !string_app_cons, string_app_nil in Heq.
  destruct p1 as [|c1 p1]; [done|].
  rewrite string_app_cons in Heq. injection Heq as <- Heq.
  do 4 (destruct p1 as [|? p1];
        [rewrite string_app_nil in Heq; by subst p2|];
        rewrite string_app_cons in Heq; injection Heq as <- Heq).
  destruct (suffix_of_label _ _ _ Hlab Heq Hp2) as (x2 & -> & Hx2).
  rewrite string_app_assoc. by apply no_desc_in_label.
Qed.

(** Greedy [.*]: the label comes from the last [desc-<label>_] segment. *)
Lemma match_last_segment pre lab post :
  all_in re.Dot pre = true → all_in alnum lab = true → lab ≠ "" →
  re.match_ trial_type_pattern post = None →
  re.match_ trial_type_pattern (pre +:+ "desc-" +:+ lab +:+ "_" +:+ post)
  = Some {["trial_type" := lab]}.
Proof.
  intros Hpre Hlab Hne Hpost. rewrite match_is_star in *.
  apply star_app_Some; [done|].
  assert ("desc-" +:+ lab +:+ "_" +:+ post
          = String "d" (("esc-" +:+ lab +:+ "_") +:+ post)) as Hd.
  { by rewrite !string_app_assoc. }
  rewrite Hd, star_cons, star_app_None; [| |done].
  - rewrite <- Hd. by apply segment_hit.
  - intros p1 p2 Heq Hp2.
    apply (segment_miss lab post (String "d" p1)); [done| |done..].
    by rewrite (string_app_cons _ p1 p2), <- Heq.
Qed.

Lemma match_later_segment pre post m :
  all_in re.Dot pre = true →
  re.match_ trial_type_pattern post = Some m →
  re.match_ trial_type_pattern (pre +:+ post) = Some m.
Proof. rewrite !match_is_star. apply star_app_Some. Qed.

(** A literal without a newline is read alike before a newline and before
    the end of the string. *)
Lemma strip_prefix_stop p t rest :
  all_in re.Dot p = true →
  strip_prefix p (t +:+ String newline rest)
  = (λ t', t' +:+ String newline rest) <$> strip_prefix p t.
Proof.
  revert t. induction p as [|a p IH]; intros t Hp; [done|].
  rewrite all_in_cons in Hp. apply andb_true_iff in Hp as [Ha Hp].
  destruct t as [|b t].
  - rewrite string_app_nil. simpl in *. by destruct (Ascii.eqb a newline).
  - rewrite string_app_cons, !strip_prefix_cons.
    destruct (Ascii.eqb a b); [by apply IH|done].
Qed.

(** A repetition does not go past a character that is not of its class. *)
Lemma star_stop {A} cs line c rest (k k' : string → option A) :
  re.in_charset cs c = false →
  (∀ p t, line = p +:+ t → k' (t +:+ String c rest) = k t) →
  re.star cs (line +:+ String c rest) k' = re.star cs line k.
Proof.
  intros Hc. induction line as [|x line IH]; intros Hk.
  - rewrite string_app_nil, star_cons, Hc. by apply (Hk "" "").
  - rewrite string_app_cons, !star_cons.
    rewrite IH by (intros p t ->; by apply (Hk (String x p) t)).
    by rewrite <- string_app_cons, (Hk "" (String x line)).
Qed.

Lemma segment_stop t rest :
  re.run segment (t +:+ String newline rest) ∅ (λ _ g, Some g)
  = re.run segment t ∅ (λ _ g, Some g).
Proof.
  rewrite !run_segment, strip_prefix_stop by done.
  destruct (strip_prefix "desc-" t) as [[|c s']|];
    unfold fmap, option_fmap, option_map; [done| |done].
  rewrite string_app_cons. destruct (re.in_charset alnum c); [|done].
  apply star_stop; [done|]. intros p t2 ->.
  rewrite (strip_prefix_stop "_") by done.
  destruct (strip_prefix "_" t2); unfold fmap, option_fmap, option_map; [|done].
  rewrite string_app_assoc, <- !string_app_cons. by rewrite !consumed_app.
Qed.

(** The pattern sees nothing of what follows the first newline. *)
Lemma match_stops_at_newline line rest :
  re.match_ trial_type_pattern (line +:+ String newline rest)
  = re.match_ trial_type_pattern line.
Proof.
  rewrite !match_is_star. apply star_stop; [done|]. intros p t _.
  apply segment_stop.
Qed.

Lemma filter_none {A} (P : A → Prop) `{!∀ x, Decision (P x)} (l : list A) :
  Forall (λ x, ¬ P x) l → filter P l = [].
Proof.
  induction 1 as [|x l Hx _ IH]; [done|]. by rewrite filter_cons_False.
Qed.

Lemma filter_all {A} (P : A → Prop) `{!∀ x, Decision (P x)} (l : list A) :
  Forall P l → filter P l = l.
Proof.
  induction 1 as [|x l Hx _ IH]; [done|]. by rewrite filter_cons_True, IH.
Qed.

Section filter_facts.

Variable images : gmap string file.

Lemma check_beta_series_run path n σ :
  trial_count images path = Some n →
  check_beta_series images path min_size σ
  = (Return (retained images path),
     State (heap σ) (log σ ++ warnings_for images path)).
Proof.
  intros Hn. unfold check_beta_series, retained, warnings_for, label.
  rewrite Hn. unfold trial_count in Hn.
  unfold nib_load_shape, last_dim.
  destruct (images !! path) as [[shape|]|] eqn:Himg; [|done..]. simpl in Hn.
  unfold_M. rewrite Hn.
  destruct (Z.ltb_spec n min_size) as [Hlt|Hge].
  - rewrite bool_decide_eq_false_2 by lia.
    destruct (re.match_ trial_type_pattern path) as [mtch|]; simpl.
    + done.
    + by rewrite <- app_assoc.
  - rewrite bool_decide_eq_true_2 by lia.
    destruct σ; simpl. by rewrite app_nil_r.
Qed.

Lemma comprehension_run items σ :
  Forall (λ path, is_Some (trial_count images path)) items →
  comprehension images items σ
  = (Return (filter (λ path, retained images path) items),
     State (heap σ) (log σ ++ (path ← items; warnings_for images path))).
Proof.
  intros Hall. revert σ. induction Hall as [|path items [n Hn] _ IH]; intros σ.
  - simpl. unfold_M. destruct σ; simpl. by rewrite app_nil_r.
  - simpl. unfold mbind at 1, M_bind at 1.
    rewrite (check_beta_series_run _ _ _ Hn).
    unfold mbind at 1, M_bind at 1. rewrite IH. simpl.
    unfold mret, M_ret. rewrite <- app_assoc.
    rewrite filter_cons. by destruct (retained images path).
Qed.

Lemma check_beta_series_returns path b σ σ' :
  check_beta_series images path min_size σ = (Return b, σ') →
  is_Some (trial_count images path).
Proof.
  unfold check_beta_series, trial_count, nib_load_shape, last_dim.
  destruct (images !! path) as [[shape|]|]; unfold_M; simpl; [|done..].
  destruct (last shape); [eauto|done].
Qed.

Lemma comprehension_returns items kept σ σ' :
  comprehension images items σ = (Return kept, σ') →
  Forall (λ path, is_Some (trial_count images path)) items.
Proof.
  revert kept σ σ'. induction items as [|path items IH]; intros kept σ σ'; [done|].
  simpl. unfold mbind at 1, M_bind at 1.
  destruct (check_beta_series images path min_size σ) as [[b|e] σ1] eqn:Hc; [|done].
  unfold mbind at 1, M_bind at 1.
  destruct (comprehension images items σ1) as [[rest|e] σ2] eqn:Hr; [|done].
  intros _. constructor; eauto using check_beta_series_returns.
Qed.

Lemma comprehension_heap items σ :
  heap (comprehension images items σ).2 = heap σ.
Proof.
  revert σ. induction items as [|path items IH]; intros σ; [done|].
  simpl. unfold mbind at 1, M_bind at 1.
  assert (heap (check_beta_series images path min_size σ).2 = heap σ) as Hc.
  { unfold check_beta_series, nib_load_shape, last_dim.
    destruct (images !! path) as [[shape|]|]; unfold_M; simpl; [|done..].
    destruct (last shape) as [n|]; [|done].
    destruct (n <? min_size); [|done].
    by destruct (re.match_ trial_type_pattern path). }
  destruct (check_beta_series images path min_size σ) as [[b|e] σ1]; [|done].
  unfold mbind at 1, M_bind at 1. simpl in Hc. rewrite <- Hc, <- (IH σ1).
  by destruct (comprehension images items σ1) as [[rest|e] σ2].
Qed.

(** One call of the filter on readable artifacts, in closed form. *)
Lemma check_bs_len_run l items σ :
  heap σ !! l = Some items →
  Forall (λ path, is_Some (trial_count images path)) items →
  _check_bs_len images l σ
  = (match filter (λ path, retained images path) items with
     | [] => Raise (RuntimeError none_left_msg)
     | _ :: _ => Return l
     end,
     State (<[l := filter (λ path, retained images path) items]> (heap σ))
       (log σ ++ (path ← items; warnings_for images path))).
Proof.
  intros Hl Hall. unfold _check_bs_len.
  unfold mbind at 1, M_bind at 1, list_items at 1. rewrite Hl.
  unfold mbind at 1, M_bind at 1. rewrite (comprehension_run _ _ Hall).
  unfold_M. simpl. rewrite Hl. simpl. rewrite lookup_insert_eq.
  by destruct (filter _ items).
Qed.

(** A call that returns has read every artifact. *)
Lemma check_bs_len_returns l items r σ σ' :
  heap σ !! l = Some items →
  _check_bs_len images l σ = (Return r, σ') →
  Forall (λ path, is_Some (trial_count images path)) items.
Proof.
  intros Hl. unfold _check_bs_len.
  unfold mbind at 1, M_bind at 1, list_items at 1. rewrite Hl.
  unfold mbind at 1, M_bind at 1.
  destruct (comprehension images items σ) as [[kept|e] σ1] eqn:Hc; [|done].
  intros _. eauto using comprehension_returns.
Qed.

Lemma retained_spec path :
  retained images path = true ↔ ∃ n, trial_count images path = Some n ∧ 3 ≤ n.
Proof.
  unfold retained, min_size. destruct (trial_count images path) as [n|].
  - rewrite bool_decide_eq_true. split; [by eauto|]. by intros (? & [= <-] & ?).
  - split; [done|]. by intros (? & ? & ?).
Qed.

Lemma comprehension_raises items e σ σ' :
  comprehension images items σ = (Raise e, σ') → ∀ msg, e ≠ RuntimeError msg.
Proof.
  revert σ. induction items as [|path items IH]; intros σ; [done|].
  simpl. unfold mbind at 1, M_bind at 1.
  destruct (check_beta_series images path min_size σ) as [[b|e1] σ1] eqn:Hc.
  - unfold mbind at 1, M_bind at 1.
    destruct (comprehension images items σ1) as [[rest|e2] σ2] eqn:Hr; [done|].
    intros [= <- <-]. eauto.
  - intros [= <- <-]. revert Hc.
    unfold check_beta_series, nib_load_shape, last_dim.
    destruct (images !! path) as [[shape|]|]; unfold_M; simpl;
      [|by intros [= <- _]..].
    destruct (last shape) as [n|]; [|by intros [= <- _]].
    destruct (n <? min_size); [|done].
    by destruct (re.match_ trial_type_pattern path).
Qed.

(** A call on a list with an unreadable artifact raises the reader's
    exception and leaves every list object as it was. *)
Lemma check_bs_len_unreadable l items σ :
  heap σ !! l = Some items →
  ¬ Forall (λ path, is_Some (trial_count images path)) items →
  ∃ e σ', _check_bs_len images l σ = (Raise e, σ') ∧
          (∀ msg, e ≠ RuntimeError msg) ∧ heap σ' = heap σ.
Proof.
  intros Hl Hnot. unfold _check_bs_len.
  unfold mbind at 1, M_bind at 1, list_items at 1. rewrite Hl.
  unfold mbind at 1, M_bind at 1.
  pose proof (comprehension_heap items σ) as Hheap.
  destruct (comprehension images items σ) as [[kept|e] σ1] eqn:Hc.
  - destruct Hnot. eauto using comprehension_returns.
  - exists e, σ1. eauto using comprehension_raises.
Qed.

(** C1. Among readable artifacts the filter keeps exactly those with at
    least three trials: an artifact of the input with trial count [>= 3]
    makes the call return and is in the returned list, an artifact with
    trial count [< 3] is not in the list after the call, and everything in
    the returned list has trial count [>= 3]. *)
Theorem check_bs_len_keeps_exactly_min_size l items σ :
  heap σ !! l = Some items →
  Forall (λ path, is_Some (trial_count images path)) items →
  let r := _check_bs_len images l σ in
  (∀ path n, path ∈ items → trial_count images path = Some n → 3 ≤ n →
     r.1 = Return l ∧ ∃ kept, items_after r l = Some kept ∧ path ∈ kept) ∧
  (∀ path n, path ∈ items → trial_count images path = Some n → n < 3 →
     ∀ kept, items_after r l = Some kept → path ∉ kept) ∧
  (∀ l' kept, r.1 = Return l' → items_after r l' = Some kept →
     ∀ path, path ∈ kept → ∃ n, trial_count images path = Some n ∧ 3 ≤ n).
Proof.
  intros Hl Hall r. subst r. rewrite (check_bs_len_run _ _ _ Hl Hall).
  unfold items_after. simpl. split_and!.
  - intros path n Hin Hn Hge.
    assert (path ∈ filter (λ path, retained images path) items) as Hkept.
    { apply list_elem_of_filter. split; [|done].
      apply Is_true_true, retained_spec. eauto. }
    rewrite lookup_insert_eq. split; [|by eauto].
    destruct (filter _ items); [by apply elem_of_nil in Hkept|done].
  - intros path n Hin Hn Hlt kept. rewrite lookup_insert_eq. intros [= <-].
    rewrite list_elem_of_filter. intros [Hr _].
    apply Is_true_true, retained_spec in Hr as (n' & Hn' & ?).
    rewrite Hn in Hn'. injection Hn' as <-. lia.
  - intros l' kept Hret. assert (l' = l) as ->.
    { destruct (filter _ items); [done|]. by injection Hret. }
    rewrite lookup_insert_eq. intros [= <-] path.
    rewrite list_elem_of_filter. intros [Hr _].
    by apply Is_true_true, retained_spec in Hr.
Qed.

(** C3. The filter only ever drops items: whatever the outcome, the list
    object is left holding a subsequence of the items it held (the survivors
    in their relative order, nothing added or repeated); a call that returns
    hands back that object, and it does return as soon as every artifact is
    readable and one of them has three trials or more. *)
Theorem check_bs_len_sublist l items σ :
  heap σ !! l = Some items →
  let r := _check_bs_len images l σ in
  (∃ kept, items_after r l = Some kept ∧ kept `sublist_of` items) ∧
  (∀ l', r.1 = Return l' → l' = l) ∧
  (Forall (λ path, is_Some (trial_count images path)) items →
   (∃ path n, path ∈ items ∧ trial_count images path = Some n ∧ 3 ≤ n) →
   r.1 = Return l).
Proof.
  intros Hl r. subst r. unfold items_after.
  destruct (decide (Forall (λ path, is_Some (trial_count images path)) items))
    as [Hall|Hnot].
  - rewrite (check_bs_len_run _ _ _ Hl Hall). simpl. rewrite lookup_insert_eq.
    split_and!.
    + eexists; split; [done|]. apply sublist_filter.
    + intros l'. by destruct (filter _ items); [|intros [= <-]].
    + intros _ (path & n & Hin & Hn & Hge).
      assert (path ∈ filter (λ path, retained images path) items) as Hkept.
      { apply list_elem_of_filter. split; [|done].
        apply Is_true_true, retained_spec. eauto. }
      destruct (filter _ items); [by apply elem_of_nil in Hkept|done].
  - destruct (check_bs_len_unreadable _ _ _ Hl Hnot) as (e & σ' & -> & He & Hheap).
    simpl. rewrite Hheap, Hl. split_and!; [by eauto|done|done].
Qed.

(** C8. The filter works in place: a call that returns hands back the very
    list object it was given, and that object now holds the surviving
    artifacts in their original order; no other object is touched. *)
Theorem check_bs_len_in_place l items r σ σ' :
  heap σ !! l = Some items →
  _check_bs_len images l σ = (Return r, σ') →
  r = l ∧
  heap σ' !! l = Some (filter (λ path, retained images path) items) ∧
  ∀ l', l' ≠ l → heap σ' !! l' = heap σ !! l'.
Proof.
  intros Hl Hrun.
  pose proof (check_bs_len_returns _ _ _ _ _ Hl Hrun) as Hall.
  rewrite (check_bs_len_run _ _ _ Hl Hall) in Hrun.
  destruct (filter _ items) as [|path kept] eqn:Hf; [done|].
  injection Hrun as <- <-. simpl. split_and!; [done|by rewrite lookup_insert_eq|].
  intros l' Hne. by rewrite lookup_insert_ne.
Qed.

(** C2, as the code has it. When every artifact has fewer than three trials
    the call raises [RuntimeError] and returns nothing; it raises this error
    exactly when the filtered list is empty. By then the list object has
    been overwritten with the (empty) filtered list and the warnings of all
    exclusions are in the log. *)
Theorem check_bs_len_none_left l items σ :
  heap σ !! l = Some items →
  let r := _check_bs_len images l σ in
  (Forall (λ path, ∃ n, trial_count images path = Some n ∧ n < 3) items →
     r.1 = Raise (RuntimeError none_left_msg)) ∧
  (r.1 = Raise (RuntimeError none_left_msg) ↔ items_after r l = Some []) ∧
  (∀ msg, r.1 = Raise (RuntimeError msg) →
     msg = none_left_msg ∧
     heap r.2 = <[l := []]> (heap σ) ∧
     log r.2 = log σ ++ (path ← items; warnings_for images path)).
Proof.
  intros Hl r. subst r. unfold items_after.
  destruct (decide (Forall (λ path, is_Some (trial_count images path)) items))
    as [Hall|Hnot].
  - rewrite (check_bs_len_run _ _ _ Hl Hall). simpl. rewrite lookup_insert_eq.
    split_and!.
    + intros Hlow.
      assert (filter (λ path, retained images path) items = []) as ->; [|done].
      apply filter_none. eapply Forall_impl; [exact Hlow|].
      intros path (n & Hn & Hlt) Hr. simpl in Hr.
      apply Is_true_true, retained_spec in Hr as (n' & Hn' & ?).
      rewrite Hn in Hn'. injection Hn' as <-. lia.
    + by destruct (filter _ items).
    + intros msg. by destruct (filter _ items); [intros [= <-]|].
  - destruct (check_bs_len_unreadable _ _ _ Hl Hnot) as (e & σ' & -> & He & Hheap).
    simpl. rewrite Hheap, Hl. split_and!.
    + intros Hlow. destruct Hnot. eapply Forall_impl; [exact Hlow|].
      by intros path (n & -> & _).
    + split; [intros [= ->]; by destruct (He none_left_msg)|].
      intros [= ->]. destruct Hnot. constructor.
    + intros msg [= ->]. by destruct (He msg).
Qed.

(** C9, as the code has it. A non-empty list whose artifacts all have at
    least three trials is returned as it is, with no warning and no change
    of state; hence a call that returns can be repeated on its own result
    without any further effect. *)
Theorem check_bs_len_idempotent l items r σ σ' :
  heap σ !! l = Some items →
  (items ≠ [] →
   Forall (λ path, ∃ n, trial_count images path = Some n ∧ 3 ≤ n) items →
   _check_bs_len images l σ = (Return l, σ)) ∧
  (_check_bs_len images l σ = (Return r, σ') →
   _check_bs_len images r σ' = (Return r, σ')).
Proof.
  intros Hl.
  assert (∀ l items σ, heap σ !! l = Some items → items ≠ [] →
    Forall (λ path, ∃ n, trial_count images path = Some n ∧ 3 ≤ n) items →
    _check_bs_len images l σ = (Return l, σ)) as Hfix.
  { clear. intros l items σ Hl Hne Hall.
    assert (Forall (λ path, is_Some (trial_count images path)) items) as Hread.
    { eapply Forall_impl; [exact Hall|]. by intros path (n & -> & _). }
    assert (Forall (λ path, retained images path) items) as Hkeep.
    { eapply Forall_impl; [exact Hall|].
      intros path Hp. by apply Is_true_true, retained_spec. }
    assert ((path ← items; warnings_for images path) = []) as Hquiet.
    { clear -Hall. induction Hall as [|path items (n & Hn & Hge) _ IH]; [done|].
      rewrite bind_cons, IH, app_nil_r. unfold warnings_for. rewrite Hn.
      by rewrite bool_decide_eq_true_2. }
    rewrite (check_bs_len_run _ _ _ Hl Hread).
    rewrite (filter_all _ _ Hkeep).
    rewrite Hquiet, app_nil_r, (insert_id _ _ _ Hl).
    destruct items; [done|]. by destruct σ. }
  split; [by eauto|].
  intros Hrun.
  pose proof (check_bs_len_returns _ _ _ _ _ Hl Hrun) as Hall.
  rewrite (check_bs_len_run _ _ _ Hl Hall) in Hrun.
  destruct (filter _ items) as [|path kept] eqn:Hf; [done|].
  injection Hrun as <- <-.
  apply (Hfix _ (path :: kept)); [by simpl; rewrite lookup_insert_eq|done|].
  rewrite <- Hf. apply Forall_forall. intros p.
  rewrite list_elem_of_filter. intros [Hr _].
  by apply Is_true_true, retained_spec in Hr.
Qed.

End filter_facts.

Section warning_facts.

Variable images : gmap string file.



Lemma warnings_for_excluded path n :
  trial_count images path = Some n → n < 3 →
  warnings_for images path
  = (match re.match_ trial_type_pattern path with
     | Some _ => []
     | None => [unknown_trial_type_msg path]
     end ++ [too_few_trials_msg min_size (label path) n])%list.
Proof.
  intros Hn Hlt. unfold warnings_for. rewrite Hn.
  by rewrite bool_decide_eq_false_2 by (unfold min_size; lia).
Qed.


(** C6, as the code has it. The label is looked up only for an artifact that
    is being excluded. The warnings of a call are those of its artifacts in
    order: none for a retained artifact, the exclusion warning for an
    excluded one, preceded by the unknown-trial-type warning when its name
    has no [desc-<label>_] segment. *)
Theorem warnings_only_for_excluded l items σ :
  heap σ !! l = Some items →
  Forall (λ path, is_Some (trial_count images path)) items →
  let r := _check_bs_len images l σ in
  ∃ w : string → list string,
    log r.2 = log σ ++ (path ← items; w path) ∧
    ∀ path n, trial_count images path = Some n →
      (3 ≤ n → w path = []) ∧
      (n < 3 → re.match_ trial_type_pattern path = None →
         w path = [unknown_trial_type_msg path;
                   too_few_trials_msg 3 (Some "UNKNOWN") n]) ∧
      (n < 3 → ∀ m, re.match_ trial_type_pattern path = Some m →
         w path = [too_few_trials_msg 3 (m !! "trial_type") n]).
Proof.
  intros Hl Hall r. subst r. rewrite (check_bs_len_run _ _ _ _ Hl Hall). simpl.
  exists (warnings_for images). split; [done|].
  intros path n Hn. split_and!.
  - intros Hge. unfold warnings_for. rewrite Hn. by rewrite bool_decide_eq_true_2.
  - intros Hlt Hm. rewrite (warnings_for_excluded _ _ Hn Hlt). unfold label.
    by rewrite Hm.
  - intros Hlt m Hm. rewrite (warnings_for_excluded _ _ Hn Hlt). unfold label.
    by rewrite Hm.
Qed.

(** C10, as the code has it. The pattern is matched against the whole
    path, so that a [desc-<label>_] segment in a directory can give the
    label, but only the first line of the path counts: the leading [.*] is
    greedy and does not go past a newline, so the label is the one of the
    last [desc-<label>_] segment that starts before the first newline of the
    path, and what follows that newline is never looked at. *)
Theorem label_from_last_segment :
  (∀ pre lab post,
     all_in re.Dot pre = true → all_in alnum lab = true → lab ≠ "" →
     re.match_ trial_type_pattern post = None →
     label (pre +:+ "desc-" +:+ lab +:+ "_" +:+ post) = Some lab) ∧
  (∀ pre post,
     all_in re.Dot pre = true →
     is_Some (re.match_ trial_type_pattern post) →
     label (pre +:+ post) = label post) ∧
  (∀ line rest, label (line +:+ String newline rest) = label line) ∧
  (∀ n σ,
     trial_count images nested_file = Some n → n < 3 →
     check_beta_series images nested_file min_size σ
     = (Return false,
        State (heap σ) (log σ ++ [too_few_trials_msg 3 (Some "FACES") n]))) ∧
  (∀ n σ,
     trial_count images twice_file = Some n → n < 3 →
     check_beta_series images twice_file min_size σ
     = (Return false,
        State (heap σ) (log σ ++ [too_few_trials_msg 3 (Some "HOUSES") n]))).
Proof.
  split_and!.
  - intros pre lab post Hpre Hlab Hne Hpost. unfold label.
    rewrite (match_last_segment _ _ _ Hpre Hlab Hne Hpost).
    apply lookup_singleton_eq.
  - intros pre post Hpre [m Hm]. unfold label.
    by rewrite (match_later_segment _ _ _ Hpre Hm), Hm.
  - intros line rest. unfold label. by rewrite match_stops_at_newline.
  - intros n σ Hn Hlt.
    rewrite (check_beta_series_run _ _ _ _ Hn), (warnings_for_excluded _ _ Hn Hlt).
    unfold retained. rewrite Hn.
    by rewrite bool_decide_eq_false_2 by (unfold min_size; lia).
  - intros n σ Hn Hlt.
    rewrite (check_beta_series_run _ _ _ _ Hn), (warnings_for_excluded _ _ Hn Hlt).
    unfold retained. rewrite Hn.
    by rewrite bool_decide_eq_false_2 by (unfold min_size; lia).
Qed.

End warning_facts.


(** *** The workflow *)

Lemma apart_by_label {A K} (key : A → K) (l1 l2 : list A) x :
  Forall (λ k, k ∉ key <$> l2) (key <$> l1) → x ∈ l1 → x ∈ l2 → False.
Proof.
  rewrite Forall_forall. intros Hk H1 H2.
  apply (Hk (key x)); by apply list_elem_of_fmap_2.
Qed.

Lemma not_in_by_label {A K} (key : A → K) (l : list A) x :
  key x ∉ key <$> l → x ∉ l.
Proof. intros Hk Hx. by apply Hk, list_elem_of_fmap_2. Qed.

Ltac by_labels :=
  match goal with |- ?P => apply (@bool_decide_unpack P _) end; vm_compute; exact I.
Ltac find_elem := repeat first [apply list_elem_of_here | apply list_elem_of_further].

(** Goes through a [Forall] over a list that is known element by element. *)
Ltac for_each tac :=
  repeat (constructor; [tac|]); constructor.

Section workflow_facts.

Context {float metadata : Type}.

Variables (estimator : string) (atlas_img atlas_lut : option string)
  (bold_metadata_list : list metadata)
  (brainmask_list confound_tsv_list events_tsv_list : list string)
  (fir_delays : option (list Z)) (hrf_model : string) (high_pass : float)
  (name : string) (norm_betas : bool) (output_dir : string)
  (preproc_img_list : list string) (return_residuals : bool)
  (selected_confounds : option (list string)) (signal_scaling : scaling)
  (smoothing_kernel : option float).

Local Abbreviation wf :=
  (init_single_subject_wf estimator atlas_img atlas_lut bold_metadata_list
     brainmask_list confound_tsv_list events_tsv_list fir_delays hrf_model
     high_pass name norm_betas output_dir preproc_img_list return_residuals
     selected_confounds signal_scaling smoothing_kernel).
Local Abbreviation the_betaseries_connections :=
  (betaseries_connections estimator atlas_img atlas_lut bold_metadata_list
     brainmask_list confound_tsv_list events_tsv_list fir_delays hrf_model
     high_pass norm_betas output_dir preproc_img_list selected_confounds
     signal_scaling smoothing_kernel).
Local Abbreviation the_atlas_connections :=
  (atlas_connections estimator atlas_img atlas_lut bold_metadata_list
     brainmask_list confound_tsv_list events_tsv_list fir_delays hrf_model
     high_pass norm_betas output_dir preproc_img_list selected_confounds
     signal_scaling smoothing_kernel).
Local Abbreviation the_residual_connections :=
  (residual_connections estimator atlas_img atlas_lut bold_metadata_list
     brainmask_list confound_tsv_list events_tsv_list fir_delays hrf_model
     high_pass norm_betas output_dir preproc_img_list selected_confounds
     signal_scaling smoothing_kernel).

(** The connections of the workflow, branch by branch. *)
Lemma connections_wf :
  connections wf
  = the_betaseries_connections
    ++ (if truthy atlas_img && truthy atlas_lut then the_atlas_connections else [])
    ++ (if return_residuals then the_residual_connections else []).
Proof.
  unfold init_single_subject_wf, connect.
  destruct (truthy atlas_img && truthy atlas_lut), return_residuals; simpl;
    by rewrite ?app_nil_r, <- ?app_assoc.
Qed.

Lemma wf_nodes_wf :
  wf_nodes wf
  = nodes_of the_betaseries_connections
    ++ (if truthy atlas_img && truthy atlas_lut then nodes_of the_atlas_connections else [])
    ++ (if return_residuals then nodes_of the_residual_connections else []).
Proof.
  unfold wf_nodes. rewrite connections_wf. unfold nodes_of.
  rewrite !bind_app.
  by destruct (truthy atlas_img && truthy atlas_lut), return_residuals.
Qed.

Local Abbreviation steps :=
  (init_single_subject_wf_steps estimator atlas_img atlas_lut bold_metadata_list
     brainmask_list confound_tsv_list events_tsv_list fir_delays hrf_model
     high_pass name norm_betas output_dir preproc_img_list return_residuals
     selected_confounds signal_scaling smoothing_kernel).
Local Abbreviation the_input_node :=
  (input_node (float:=float) atlas_img atlas_lut bold_metadata_list brainmask_list
     confound_tsv_list events_tsv_list preproc_img_list).
Local Abbreviation the_betaseries_wf :=
  (betaseries_wf (metadata:=metadata) estimator fir_delays hrf_model high_pass
     norm_betas selected_confounds signal_scaling smoothing_kernel).

(** The step-by-step function assembles the workflow of
    [init_single_subject_wf]. *)
Lemma assembled_steps : assembled steps = wf.
Proof.
  unfold init_single_subject_wf_steps, init_single_subject_wf.
  by destruct (truthy atlas_img && truthy atlas_lut), return_residuals.
Qed.

Lemma built_steps :
  built steps
  = [the_input_node; output_node; the_betaseries_wf; correlation_wf;
     ds_correlation_matrix output_dir; ds_correlation_fig output_dir;
     ds_betaseries_file output_dir]
    ++ (if truthy atlas_img && truthy atlas_lut
        then [check_beta_series_list; censor_volumes] else [])
    ++ (if return_residuals then [ds_residual_file output_dir] else []).
Proof.
  unfold init_single_subject_wf_steps.
  destruct (truthy atlas_img && truthy atlas_lut), return_residuals; simpl;
    by rewrite ?app_nil_r, <- ?app_assoc.
Qed.

(** C4, as the code has it. The censoring node and the count-filter node
    are built, and they, the correlation sub-workflow and the two
    correlation sinks are put into the workflow, with the ten connections of
    the atlas branch, exactly when [atlas_img] and [atlas_lut] are both given
    (true in Python's sense: neither [None] nor empty). The correlation
    sub-workflow and the two correlation sinks are built in every case;
    without an atlas they stay outside the workflow, which then has no
    correlation-matrix sink, no correlation-figure sink, no censoring node,
    no count filter and no correlation sub-workflow. *)
Theorem atlas_branch_iff_atlas_given :
  let atlas := truthy atlas_img && truthy atlas_lut = true in
  let censor : node := MapNode CensorVolumes ["timeseries_file"] "censor_volumes" in
  let count_filter : node :=
    Node (Function "_check_bs_len" ["beta_series_list"]) "check_beta_series_list"
      [] false [] in
  let correlation : node := SubWorkflow init_correlation_wf in
  let ds_matrix : node :=
    MapNode (DerivativesDataSink output_dir) ["in_file"] "ds_correlation_matrix" in
  let ds_fig : node :=
    MapNode (DerivativesDataSink output_dir) ["in_file"] "ds_correlation_fig" in
  assembled steps = wf ∧
  (censor ∈ built steps ↔ atlas) ∧
  (count_filter ∈ built steps ↔ atlas) ∧
  (∀ n, n ∈ [correlation; ds_matrix; ds_fig] → n ∈ built steps) ∧
  (∀ n, n ∈ [censor; count_filter; correlation; ds_matrix; ds_fig] →
     n ∈ wf_nodes wf ↔ atlas) ∧
  (∀ c : connection,
     c ∈ [(the_input_node, censor, [("brainmask", "mask_file")]);
          (the_betaseries_wf, censor,
             [("output_node.betaseries_files", "timeseries_file")]);
          (censor, count_filter, [("censored_file", "beta_series_list")]);
          (count_filter, correlation,
             [("beta_series_list", "input_node.betaseries_files")]);
          (the_input_node, correlation,
             [("atlas_img", "input_node.atlas_file");
              ("atlas_lut", "input_node.atlas_lut")]);
          (correlation, output_node,
             [("output_node.correlation_matrix", "correlation_matrix");
              ("output_node.correlation_fig", "correlation_fig")]);
          (the_input_node, ds_matrix, [("preproc_img", "source_file")]);
          (output_node, ds_matrix, [("correlation_matrix", "in_file")]);
          (the_input_node, ds_fig, [("preproc_img", "source_file")]);
          (output_node, ds_fig, [("correlation_fig", "in_file")])] →
     c ∈ connections wf ↔ atlas) ∧
  (¬ atlas →
   ∀ n, n ∈ wf_nodes wf →
     node_label n ≠ "ds_correlation_matrix" ∧
     node_label n ≠ "ds_correlation_fig" ∧
     node_label n ≠ "censor_volumes" ∧
     node_label n ≠ "check_beta_series_list" ∧
     node_label n ≠ "init_correlation_wf" ∧
     censors n = false).
Proof.
  intros atlas censor count_filter correlation ds_matrix ds_fig.
  subst atlas censor count_filter correlation ds_matrix ds_fig. split_and!.
  - apply assembled_steps.
  - rewrite built_steps. destruct (truthy atlas_img && truthy atlas_lut).
    + split; [done|]. intros _. rewrite !elem_of_app. right; left. find_elem.
    + split; [|done]. intros Hin. exfalso. revert Hin.
      apply (not_in_by_label node_label). destruct return_residuals; by_labels.
  - rewrite built_steps. destruct (truthy atlas_img && truthy atlas_lut).
    + split; [done|]. intros _. rewrite !elem_of_app. right; left. find_elem.
    + split; [|done]. intros Hin. exfalso. revert Hin.
      apply (not_in_by_label node_label). destruct return_residuals; by_labels.
  - intros n Hn. rewrite built_steps. apply elem_of_app. left.
    revert n Hn. apply Forall_forall. repeat constructor; find_elem.
  - intros n Hn. rewrite wf_nodes_wf.
    destruct (truthy atlas_img && truthy atlas_lut).
    + split; [done|]. intros _. rewrite !elem_of_app. right; left.
      revert n Hn. apply Forall_forall. repeat constructor; find_elem.
    + split; [|done]. rewrite app_nil_l. intros Hwf. exfalso.
      revert Hn Hwf. apply (apart_by_label node_label).
      destruct return_residuals; by_labels.
  - intros c Hc. change (c ∈ the_atlas_connections) in Hc. rewrite connections_wf.
    destruct (truthy atlas_img && truthy atlas_lut).
    + split; [done|]. intros _. rewrite !elem_of_app. auto.
    + split; [|done]. rewrite app_nil_l. intros Hwf. exfalso.
      revert Hc Hwf. apply (apart_by_label connection_label).
      destruct return_residuals; by_labels.
  - intros Hno n. rewrite wf_nodes_wf.
    destruct (truthy atlas_img && truthy atlas_lut); [done|].
    rewrite app_nil_l. revert n. apply Forall_forall.
    destruct return_residuals; repeat constructor; done.
Qed.

(** C7. The residual sink is built and put into the workflow exactly when
    [return_residuals] is set: then the residuals of the beta-series
    sub-workflow go into the [residual_file] field of [output_node] and
    from there into the [in_file] field of the [ds_residual_file] sink, which
    takes the preprocessed image of [input_node] as its [source_file];
    nothing else is connected to the sink. Without the flag no residual
    sink is built and none is in the workflow. *)
Theorem residual_sink_iff_flag :
  let sink : node :=
    MapNode (DerivativesDataSink output_dir) ["in_file"] "ds_residual_file" in
  (sink ∈ built steps ↔ return_residuals = true) ∧
  (sink ∈ wf_nodes wf ↔ return_residuals = true) ∧
  ((the_betaseries_wf, output_node,
    [("output_node.residual_file", "residual_file")]) ∈ connections wf
   ↔ return_residuals = true) ∧
  ((output_node, sink, [("residual_file", "in_file")]) ∈ connections wf
   ↔ return_residuals = true) ∧
  ((the_input_node, sink, [("preproc_img", "source_file")]) ∈ connections wf
   ↔ return_residuals = true) ∧
  (∀ c, c ∈ connections wf → node_label c.1.2 = "ds_residual_file" →
     c = (output_node, sink, [("residual_file", "in_file")]) ∨
     c = (the_input_node, sink, [("preproc_img", "source_file")])) ∧
  (return_residuals = false →
   ∀ n, n ∈ wf_nodes wf ∨ n ∈ built steps → node_label n ≠ "ds_residual_file").
Proof.
  intros sink. subst sink.
  assert (∀ c : connection, c ∈ the_residual_connections →
            c ∈ connections wf ↔ return_residuals = true) as Hconn.
  { intros c Hc. rewrite connections_wf. destruct return_residuals.
    - split; [done|]. intros _. rewrite !elem_of_app. auto.
    - split; [|done]. rewrite app_nil_r. intros Hwf. exfalso.
      revert Hc Hwf. apply (apart_by_label connection_label).
      destruct (truthy atlas_img && truthy atlas_lut); by_labels. }
  split_and!.
  - rewrite built_steps. destruct return_residuals.
    + split; [done|]. intros _. rewrite !elem_of_app. right; right. find_elem.
    + split; [|done]. intros Hin. exfalso. revert Hin.
      apply (not_in_by_label node_label).
      destruct (truthy atlas_img && truthy atlas_lut); by_labels.
  - rewrite wf_nodes_wf. destruct return_residuals.
    + split; [done|]. intros _. rewrite !elem_of_app. right; right. find_elem.
    + split; [|done]. intros Hin. exfalso. revert Hin.
      apply (not_in_by_label node_label).
      destruct (truthy atlas_img && truthy atlas_lut); by_labels.
  - apply Hconn. by apply (list_elem_of_lookup_2 _ 0%nat).
  - apply Hconn. by apply (list_elem_of_lookup_2 _ 1%nat).
  - apply Hconn. by apply (list_elem_of_lookup_2 _ 2%nat).
  - intros c. rewrite connections_wf. revert c.
    refine (proj1 (Forall_forall _ _) _).
    destruct (truthy atlas_img && truthy atlas_lut), return_residuals;
      rewrite ?app_nil_r, ?app_nil_l;
      for_each ltac:(intros Hl; try discriminate Hl;
                     first [left; reflexivity|right; reflexivity]).
  - intros Hno n. rewrite wf_nodes_wf, built_steps, Hno, !app_nil_r.
    intros [Hn|Hn]; revert n Hn; refine (proj1 (Forall_forall _ _) _);
      destruct (truthy atlas_img && truthy atlas_lut); repeat constructor; done.
Qed.

End workflow_facts.

(** *** The theorems at work on the example data *)

Lemma example_readable :
  Forall (λ path, is_Some (trial_count example_images path))
    [houses_file; faces_file; unlabelled_file].
Proof. repeat constructor; eexists; vm_compute; reflexivity. Defined.

Lemma check_bs_len_keeps_exactly_min_size_witness :
  let σ := state_of [houses_file; faces_file; unlabelled_file] in
  let r := _check_bs_len example_images 0%nat σ in
  heap σ !! 0%nat = Some [houses_file; faces_file; unlabelled_file] ∧
  (r.1 = Return 0%nat ∧ ∃ kept, items_after r 0%nat = Some kept ∧ houses_file ∈ kept) ∧
  (∀ kept, items_after r 0%nat = Some kept → faces_file ∉ kept).
Proof.
  intros σ r.
  assert (heap σ !! 0%nat = Some [houses_file; faces_file; unlabelled_file]) as Hl
    by reflexivity.
  destruct (check_bs_len_keeps_exactly_min_size example_images 0%nat _ σ Hl
              example_readable) as (Hkeep & Hdrop & _).
  split; [|split].
  - exact Hl.
  - apply (Hkeep houses_file 5); [repeat constructor|vm_compute; reflexivity|lia].
  - apply (Hdrop faces_file 2); [repeat constructor|vm_compute; reflexivity|lia].
Defined.

(** C2, as stated, fails: when every artifact has fewer than three trials
    the call raises, but it has emptied the list object and written three
    warnings by then. *)
Lemma check_bs_len_error_path_mutates :
  let σ := state_of [faces_file; unlabelled_file] in
  let r := _check_bs_len example_images 0%nat σ in
  Forall (λ path, ∃ n, trial_count example_images path = Some n ∧ n < 3)
    [faces_file; unlabelled_file] ∧
  r.1 = Raise (RuntimeError "None of the beta series have at least 3 betas.") ∧
  r.2 ≠ σ ∧
  heap σ !! 0%nat = Some [faces_file; unlabelled_file] ∧
  heap r.2 !! 0%nat = Some [] ∧
  log σ = [] ∧
  log r.2 = ["At least 3 trials are needed for a beta series: FACES has 2";
             "this file: sub-01_betaseries_x.nii.gz contains an unknown trial_type";
             "At least 3 trials are needed for a beta series: UNKNOWN has 1"].
Proof.
  intros σ r. split_and!.
  - repeat constructor; eexists; (split; [vm_compute; reflexivity|lia]).
  - vm_compute. reflexivity.
  - intros Heq. apply (f_equal log) in Heq. vm_compute in Heq. discriminate.
  - reflexivity.
  - vm_compute. reflexivity.
  - reflexivity.
  - vm_compute. reflexivity.
Qed.

Lemma check_bs_len_none_left_witness :
  let σ := state_of [faces_file; unlabelled_file] in
  let r := _check_bs_len example_images 0%nat σ in
  heap σ !! 0%nat = Some [faces_file; unlabelled_file] ∧
  r.1 = Raise (RuntimeError none_left_msg) ∧
  items_after r 0%nat = Some [].
Proof.
  intros σ r.
  assert (heap σ !! 0%nat = Some [faces_file; unlabelled_file]) as Hl by reflexivity.
  destruct (check_bs_len_none_left example_images 0%nat _ σ Hl) as (Hlow & Hiff & _).
  assert (r.1 = Raise (RuntimeError none_left_msg)) as Hr.
  { apply Hlow. repeat constructor; eexists; (split; [vm_compute; reflexivity|lia]). }
  split_and!; [exact Hl|exact Hr|]. by apply Hiff.
Defined.

Lemma check_bs_len_sublist_witness :
  let σ := state_of [houses_file; faces_file; unlabelled_file] in
  let r := _check_bs_len example_images 0%nat σ in
  heap σ !! 0%nat = Some [houses_file; faces_file; unlabelled_file] ∧
  r.1 = Return 0%nat ∧
  ∃ kept, items_after r 0%nat = Some kept ∧
          kept `sublist_of` [houses_file; faces_file; unlabelled_file].
Proof.
  intros σ r.
  assert (heap σ !! 0%nat = Some [houses_file; faces_file; unlabelled_file]) as Hl
    by reflexivity.
  destruct (check_bs_len_sublist example_images 0%nat _ σ Hl) as (Hsub & _ & Hret).
  split; [exact Hl|]. split; [|exact Hsub].
  apply Hret; [exact example_readable|].
  exists houses_file, 5. split_and!; [repeat constructor|vm_compute; reflexivity|lia].
Defined.

Lemma check_bs_len_in_place_witness :
  let σ := State {[0%nat := [houses_file; faces_file]; 1%nat := [faces_file]]} [] in
  let r := _check_bs_len example_images 0%nat σ in
  heap σ !! 0%nat = Some [houses_file; faces_file] ∧
  r.1 = Return 0%nat ∧
  heap r.2 !! 0%nat = Some (filter (λ path, retained example_images path)
                           [houses_file; faces_file]) ∧
  heap r.2 !! 1%nat = Some [faces_file].
Proof.
  intros σ r.
  assert (heap σ !! 0%nat = Some [houses_file; faces_file]) as Hl by reflexivity.
  assert (r = (Return 0%nat, r.2)) as Hrun by (vm_compute; reflexivity).
  destruct (check_bs_len_in_place example_images 0%nat _ 0%nat σ r.2 Hl Hrun)
    as (_ & Hkept & Hframe).
  split_and!; [exact Hl|by rewrite Hrun|exact Hkept|].
  rewrite (Hframe 1%nat) by done. reflexivity.
Defined.


(** C6, as stated, fails: a retained artifact whose name has no
    [desc-<label>_] segment causes no warning at all. *)
Lemma unparsable_retained_is_silent :
  let images : gmap string file := {[ unlabelled_file := Image [64; 64; 36; 5] ]} in
  let σ := state_of [unlabelled_file] in
  let r := _check_bs_len images 0%nat σ in
  re.match_ trial_type_pattern unlabelled_file = None ∧
  trial_count images unlabelled_file = Some 5 ∧
  r.1 = Return 0%nat ∧
  items_after r 0%nat = Some [unlabelled_file] ∧
  log σ = [] ∧
  log r.2 = [] ∧
  unknown_trial_type_msg unlabelled_file ∉ log r.2.
Proof.
  intros images σ r.
  assert (log r.2 = []) as Hlog by (vm_compute; reflexivity).
  split_and!; try (vm_compute; reflexivity).
  rewrite Hlog. apply not_elem_of_nil.
Qed.

Lemma warnings_only_for_excluded_witness :
  let σ := state_of [houses_file; faces_file; unlabelled_file] in
  let r := _check_bs_len example_images 0%nat σ in
  heap σ !! 0%nat = Some [houses_file; faces_file; unlabelled_file] ∧
  ∃ w : string → list string,
    log r.2 = log σ ++ (path ← [houses_file; faces_file; unlabelled_file]; w path) ∧
    w houses_file = [] ∧
    w faces_file = [too_few_trials_msg 3 (Some "FACES") 2] ∧
    w unlabelled_file = [unknown_trial_type_msg unlabelled_file;
                         too_few_trials_msg 3 (Some "UNKNOWN") 1].
Proof.
  intros σ r.
  assert (heap σ !! 0%nat = Some [houses_file; faces_file; unlabelled_file]) as Hl
    by reflexivity.
  destruct (warnings_only_for_excluded example_images 0%nat _ σ Hl example_readable)
    as (w & Hlog & Hw).
  split; [exact Hl|]. exists w. split; [exact Hlog|]. split_and!.
  - apply (Hw houses_file 5); [vm_compute; reflexivity|lia].
  - assert (re.match_ trial_type_pattern faces_file = Some {["trial_type" := "FACES"]})
      as Hm by (vm_compute; reflexivity).
    destruct (Hw faces_file 2) as (_ & _ & Hx); [vm_compute; reflexivity|].
    by rewrite (Hx ltac:(lia) _ Hm).
  - destruct (Hw unlabelled_file 1) as (_ & Hx & _); [vm_compute; reflexivity|].
    apply Hx; [lia|vm_compute; reflexivity].
Defined.

(** C9, as stated, fails on the empty list: all of its (no) artifacts have
    three trials or more, yet the call raises instead of returning it. *)
Lemma check_bs_len_empty_list_raises :
  let σ := state_of [] in
  let r := _check_bs_len example_images 0%nat σ in
  heap σ !! 0%nat = Some [] ∧
  Forall (λ path, ∃ n, trial_count example_images path = Some n ∧ 3 ≤ n) [] ∧
  r.1 = Raise (RuntimeError "None of the beta series have at least 3 betas.") ∧
  r ≠ (Return 0%nat, σ).
Proof.
  intros σ r. split_and!.
  - reflexivity.
  - constructor.
  - vm_compute. reflexivity.
  - intros Heq. apply (f_equal fst) in Heq. vm_compute in Heq. discriminate.
Qed.

Lemma check_bs_len_idempotent_witness :
  let σ := state_of [houses_file; faces_file] in
  let σ' := State {[0%nat := [houses_file]]}
              ["At least 3 trials are needed for a beta series: FACES has 2"] in
  heap σ !! 0%nat = Some [houses_file; faces_file] ∧
  _check_bs_len example_images 0%nat σ = (Return 0%nat, σ') ∧
  _check_bs_len example_images 0%nat σ' = (Return 0%nat, σ').
Proof.
  intros σ σ'.
  assert (heap σ !! 0%nat = Some [houses_file; faces_file]) as Hl by reflexivity.
  assert (_check_bs_len example_images 0%nat σ = (Return 0%nat, σ')) as Hrun
    by (vm_compute; reflexivity).
  destruct (check_bs_len_idempotent example_images 0%nat _ 0%nat σ σ' Hl)
    as [_ Hagain].
  split; [exact Hl|]. split; [exact Hrun|]. by apply Hagain.
Defined.

(** *** The pattern on sample names *)

Example match_faces :
  re.match_ trial_type_pattern faces_file = Some {["trial_type" := "FACES"]}.
Proof. vm_compute. reflexivity. Qed.

Example match_unlabelled :
  re.match_ trial_type_pattern unlabelled_file = None.
Proof. vm_compute. reflexivity. Qed.

Example label_nested : label nested_file = Some "FACES".
Proof. vm_compute. reflexivity. Qed.

Example label_twice : label twice_file = Some "HOUSES".
Proof. vm_compute. reflexivity. Qed.

(** A label needs at least one letter or digit and its closing underscore;
    an unfinished last segment falls back to the one before; the leading
    [.*] does not cross a newline. *)
Example label_needs_a_character :
  re.match_ trial_type_pattern "sub-01_desc-_betaseries.nii.gz" = None.
Proof. vm_compute. reflexivity. Qed.

Example label_needs_its_underscore :
  re.match_ trial_type_pattern "sub-01_desc-FACES.nii.gz" = None.
Proof. vm_compute. reflexivity. Qed.

Example label_falls_back :
  label "sub-01_desc-FACES_desc-HOUSES.nii.gz" = Some "FACES".
Proof. vm_compute. reflexivity. Qed.

Example label_not_past_newline :
  re.match_ trial_type_pattern (String newline "desc-FACES_x") = None
  ∧ label ("desc-FACES_" +:+ String newline "desc-HOUSES_x") = Some "FACES".
Proof. split; vm_compute; reflexivity. Qed.

Example none_left_text :
  none_left_msg = "None of the beta series have at least 3 betas.".
Proof. vm_compute. reflexivity. Qed.

(** Five artifacts, three with five trials and two with one: the three are
    returned, in their order. *)
Example three_of_five :
  let images : gmap string file :=
    {[ "a" := Image [4; 4; 4; 5]; "b" := Image [4; 4; 4; 1];
       "c" := Image [4; 4; 4; 5]; "d" := Image [4; 4; 4; 1];
       "e" := Image [4; 4; 4; 5] ]} in
  let r := _check_bs_len images 0%nat (state_of ["a"; "b"; "c"; "d"; "e"]) in
  r.1 = Return 0%nat ∧ items_after r 0%nat = Some ["a"; "c"; "e"].
Proof. split; vm_compute; reflexivity. Qed.

(** *** Sample workflows *)

Example edges_without_atlas :
  edges (sample_wf None None false)
  = [("input_node", "init_betaseries_wf");
     ("init_betaseries_wf", "output_node");
     ("input_node", "ds_betaseries_file");
     ("output_node", "ds_betaseries_file")].
Proof. vm_compute. reflexivity. Qed.

(** The docstring passes empty strings for the atlas: they count as absent. *)
Example empty_atlas_is_no_atlas :
  sample_wf (Some "") (Some "") false = sample_wf None None false.
Proof. reflexivity. Qed.

Example edges_with_atlas :
  edges (sample_wf (Some "atlas.nii.gz") (Some "atlas.tsv") false)
  = [("input_node", "init_betaseries_wf");
     ("init_betaseries_wf", "output_node");
     ("input_node", "ds_betaseries_file");
     ("output_node", "ds_betaseries_file");
     ("input_node", "censor_volumes");
     ("init_betaseries_wf", "censor_volumes");
     ("censor_volumes", "check_beta_series_list");
     ("check_beta_series_list", "init_correlation_wf");
     ("input_node", "init_correlation_wf");
     ("init_correlation_wf", "output_node");
     ("input_node", "ds_correlation_matrix");
     ("output_node", "ds_correlation_matrix");
     ("input_node", "ds_correlation_fig");
     ("output_node", "ds_correlation_fig")].
Proof. vm_compute. reflexivity. Qed.

Example edges_with_residuals :
  edges (sample_wf None None true)
  = [("input_node", "init_betaseries_wf");
     ("init_betaseries_wf", "output_node");
     ("input_node", "ds_betaseries_file");
     ("output_node", "ds_betaseries_file");
     ("init_betaseries_wf", "output_node");
     ("output_node", "ds_residual_file");
     ("input_node", "ds_residual_file")].
Proof. vm_compute. reflexivity. Qed.

Lemma atlas_branch_iff_atlas_given_witness :
  censor_volumes ∈ wf_nodes (sample_wf (Some "atlas.nii.gz") (Some "atlas.tsv") false) ∧
  (ds_correlation_matrix ".") ∈ wf_nodes (sample_wf (Some "atlas.nii.gz") (Some "atlas.tsv") false) ∧
  (censor_volumes ∉ wf_nodes (sample_wf None None false)) ∧
  ((ds_correlation_matrix ".") ∉ wf_nodes (sample_wf (Some "atlas.nii.gz") None true)) ∧
  (ds_correlation_matrix ".") ∈ built (sample_steps None None false) ∧
  (censor_volumes ∉ built (sample_steps None None false)).
Proof.
  unfold sample_wf, sample_steps. split_and!.
  - apply (proj1 (proj2 (proj2 (proj2 (proj2
      (atlas_branch_iff_atlas_given _ _ _ _ _ _ _ _ _ _ _ _ _ _ _ _ _ _))))));
      [find_elem|reflexivity].
  - apply (proj1 (proj2 (proj2 (proj2 (proj2
      (atlas_branch_iff_atlas_given _ _ _ _ _ _ _ _ _ _ _ _ _ _ _ _ _ _))))));
      [find_elem|reflexivity].
  - intros Hin.
    apply (proj1 (proj2 (proj2 (proj2 (proj2
      (atlas_branch_iff_atlas_given _ _ _ _ _ _ _ _ _ _ _ _ _ _ _ _ _ _))))))
      in Hin; [discriminate|find_elem].
  - intros Hin.
    apply (proj1 (proj2 (proj2 (proj2 (proj2
      (atlas_branch_iff_atlas_given _ _ _ _ _ _ _ _ _ _ _ _ _ _ _ _ _ _))))))
      in Hin; [discriminate|find_elem].
  - apply (proj1 (proj2 (proj2 (proj2
      (atlas_branch_iff_atlas_given _ _ _ _ _ _ _ _ _ _ _ _ _ _ _ _ _ _)))));
      find_elem.
  - intros Hin.
    by apply (proj1 (proj2
      (atlas_branch_iff_atlas_given _ _ _ _ _ _ _ _ _ _ _ _ _ _ _ _ _ _))) in Hin.
Defined.

(** Without an atlas the correlation sub-workflow and both correlation sinks
    are built all the same; they are only left out of the workflow. *)
Lemma correlation_sinks_built_without_atlas :
  let steps := sample_steps None None false in
  (ds_correlation_matrix ".") ∈ built steps ∧
  (ds_correlation_fig ".") ∈ built steps ∧
  correlation_wf ∈ built steps ∧
  ((ds_correlation_matrix ".") ∉ wf_nodes (assembled steps)) ∧
  ((ds_correlation_fig ".") ∉ wf_nodes (assembled steps)) ∧
  correlation_wf ∉ wf_nodes (assembled steps).
Proof.
  split_and!; [vm_compute; find_elem..| | |];
    apply (not_in_by_label node_label); by_labels.
Qed.

Lemma residual_sink_iff_flag_witness :
  (ds_residual_file ".") ∈ wf_nodes (sample_wf None None true) ∧
  ((ds_residual_file ".") ∉ wf_nodes (sample_wf (Some "atlas.nii.gz") (Some "atlas.tsv") false)) ∧
  ((ds_residual_file ".") ∉ built (sample_steps (Some "atlas.nii.gz") (Some "atlas.tsv") false)) ∧
  (output_node, ds_residual_file ".", [("residual_file", "in_file")])
    ∈ connections (sample_wf None None true).
Proof.
  unfold sample_wf, sample_steps. split_and!.
  - by apply (proj1 (proj2 (residual_sink_iff_flag _ _ _ _ _ _ _ _ _ _ _ _ _ _ _ _ _ _))).
  - intros Hin.
    by apply (proj1 (proj2 (residual_sink_iff_flag _ _ _ _ _ _ _ _ _ _ _ _ _ _ _ _ _ _)))
      in Hin.
  - intros Hin.
    by apply (proj1 (residual_sink_iff_flag _ _ _ _ _ _ _ _ _ _ _ _ _ _ _ _ _ _)) in Hin.
  - by apply (proj1 (proj2 (proj2 (proj2
      (residual_sink_iff_flag _ _ _ _ _ _ _ _ _ _ _ _ _ _ _ _ _ _))))).
Defined.

Lemma label_from_last_segment_witness :
  all_in re.Dot "/data/" = true ∧
  all_in alnum "FACES" = true ∧
  re.match_ trial_type_pattern "run1/sub-01_betaseries.nii.gz" = None ∧
  label nested_file = Some "FACES" ∧
  label twice_file = label "desc-HOUSES_betaseries.nii.gz" ∧
  label ("desc-FACES_" +:+ String newline "desc-HOUSES_x") = label "desc-FACES_".
Proof.
  assert (re.match_ trial_type_pattern "run1/sub-01_betaseries.nii.gz" = None)
    as Hpost by (vm_compute; reflexivity).
  destruct (label_from_last_segment example_images) as (Hlast & Hlater & Hline & _).
  split_and!; [reflexivity|reflexivity|exact Hpost| | |].
  - by apply (Hlast "/data/" "FACES" "run1/sub-01_betaseries.nii.gz").
  - apply (Hlater "sub-01_desc-FACES_" "desc-HOUSES_betaseries.nii.gz");
      [reflexivity|]. eexists. vm_compute. reflexivity.
  - apply (Hline "desc-FACES_" "desc-HOUSES_x").
Defined.

(** A path of two lines with a segment on each: the last segment of the
    path is [desc-HOUSES_], on the second line, and the warning names
    [FACES], the label of the segment on the first. *)
Lemma label_not_from_last_segment :
  let path := "desc-FACES_" +:+ String newline "desc-HOUSES_x" in
  let images : gmap string file := {[ path := Image [2] ]} in
  path = ("desc-FACES_" +:+ String newline "") +:+ "desc-" +:+ "HOUSES" +:+ "_" +:+ "x" ∧
  re.match_ trial_type_pattern "x" = None ∧
  label path = Some "FACES" ∧
  label path ≠ Some "HOUSES" ∧
  check_beta_series images path min_size (State ∅ [])
  = (Return false,
     State ∅ ["At least 3 trials are needed for a beta series: FACES has 2"]).
Proof. split_and!; [vm_compute; reflexivity..|discriminate|vm_compute; reflexivity]. Qed.

(** ** Further properties of the filter *)

Section more_filter_facts.

Variable images : gmap string file.

Lemma check_beta_series_unreadable path σ :
  trial_count images path = None →
  check_beta_series images path min_size σ = (Raise (read_error images path), σ).
Proof.
  unfold check_beta_series, trial_count, read_error, nib_load_shape, last_dim.
  destruct (images !! path) as [[shape|]|]; unfold_M; simpl; [|done..].
  by intros ->.
Qed.



(** X1. The filter stops at the first artifact it cannot read: the call
    raises the exception of that read ([FileNotFoundError] for a path where
    no file is, [ImageFileError] for a file that is no image, [IndexError]
    for an image without dimensions), no list object is changed, and the
    log is what checking the artifacts before it wrote. *)
Theorem check_bs_len_fails_fast l before bad after σ :
  heap σ !! l = Some (before ++ bad :: after) →
  Forall (λ path, is_Some (trial_count images path)) before →
  trial_count images bad = None →
  let r := _check_bs_len images l σ in
  r.1 = Raise (match images !! bad with
               | None => FileNotFoundError bad
               | Some NotAnImage => ImageFileError bad
               | Some (Image _) => IndexError "tuple index out of range"
               end) ∧
  heap r.2 = heap σ ∧
  log r.2 = log (comprehension images before σ).2.
Proof.
  intros Hl Hbefore Hbad r. subst r.
  change (match images !! bad with
          | None => FileNotFoundError bad
          | Some NotAnImage => ImageFileError bad
          | Some (Image _) => IndexError "tuple index out of range"
          end) with (read_error images bad).
  assert (∀ σ0, comprehension images (before ++ bad :: after) σ0
                = (Raise (read_error images bad), (comprehension images before σ0).2))
    as Hc.
  { clear Hl. induction Hbefore as [|path before [n Hn] _ IH]; intros σ0.
    - simpl. unfold mbind at 1, M_bind at 1.
      by rewrite (check_beta_series_unreadable _ _ Hbad).
    - simpl. unfold mbind at 1 3, M_bind at 1 3.
      rewrite (check_beta_series_run _ _ _ _ Hn).
      unfold mbind at 1 2, M_bind at 1 2. rewrite IH.
      by destruct (comprehension images before _) as [[rest|e] σ2]. }
  assert (_check_bs_len images l σ
          = (Raise (read_error images bad), (comprehension images before σ).2))
    as ->.
  { unfold _check_bs_len.
    unfold mbind at 1, M_bind at 1, list_items at 1. rewrite Hl.
    unfold mbind at 1, M_bind at 1. by rewrite Hc. }
  simpl. split_and!; [done| |done]. apply comprehension_heap.
Qed.



(** X3. A failure for want of trials is final: once a call has raised
    [RuntimeError], calling the filter again on the same list raises the
    same error and changes nothing (the list has been emptied). *)
Theorem check_bs_len_failure_is_final l msg σ σ' :
  _check_bs_len images l σ = (Raise (RuntimeError msg), σ') →
  _check_bs_len images l σ' = (Raise (RuntimeError msg), σ').
Proof.
  intros Hrun.
  destruct (heap σ !! l) as [items|] eqn:Hl.
  2:{ revert Hrun. unfold _check_bs_len.
      unfold mbind at 1, M_bind at 1, list_items at 1. by rewrite Hl. }
  destruct (decide (Forall (λ path, is_Some (trial_count images path)) items))
    as [Hall|Hnot].
  2:{ destruct (check_bs_len_unreadable _ _ _ _ Hl Hnot) as (e & σ1 & Hr & He & _).
      rewrite Hr in Hrun. injection Hrun as -> _. by destruct (He msg). }
  rewrite (check_bs_len_run _ _ _ _ Hl Hall) in Hrun.
  destruct (filter _ items) eqn:Hf; [|done]. injection Hrun as <- <-.
  rewrite (check_bs_len_run _ _ [] _); simpl.
  - by rewrite insert_insert_eq, app_nil_r.
  - apply lookup_insert_eq.
  - constructor.
Qed.

(** X4. Of an image only the trailing dimension counts: two sets of images
    that give the artifacts of the list the same trial counts give the same
    outcome, list and warnings, whatever their other dimensions are. *)
Theorem check_bs_len_reads_trailing_dimension (images' : gmap string file) l items σ :
  heap σ !! l = Some items →
  Forall (λ path, is_Some (trial_count images path) ∧
                  trial_count images' path = trial_count images path) items →
  _check_bs_len images' l σ = _check_bs_len images l σ.
Proof.
  intros Hl Hall.
  assert (Forall (λ path, is_Some (trial_count images path)) items) as Hread.
  { eapply Forall_impl; [exact Hall|]. by intros path [? _]. }
  assert (Forall (λ path, is_Some (trial_count images' path)) items) as Hread'.
  { eapply Forall_impl; [exact Hall|]. by intros path [? ->]. }
  rewrite (check_bs_len_run _ _ _ _ Hl Hread), (check_bs_len_run _ _ _ _ Hl Hread').
  assert (filter (λ path, retained images' path) items
          = filter (λ path, retained images path) items) as ->.
  { clear -Hall. induction Hall as [|path items [_ Heq] _ IH]; [done|].
    rewrite !filter_cons, IH. unfold retained. by rewrite Heq. }
  assert ((path ← items; warnings_for images' path)
          = (path ← items; warnings_for images path)) as ->; [|done].
  clear -Hall. induction Hall as [|path items [_ Heq] _ IH]; [done|].
  rewrite !bind_cons, IH. unfold warnings_for. by rewrite Heq.
Qed.

End more_filter_facts.

(** ** Further properties of the label pattern *)

Lemma strip_prefix_Some p s r : strip_prefix p s = Some r → s = p +:+ r.
Proof.
  revert s. induction p as [|a p IH]; intros s; simpl.
  - by intros [= ->].
  - destruct s as [|b s]; [done|].
    destruct (Ascii.eqb_spec a b) as [->|]; [|done].
    intros Hs. by rewrite (IH _ Hs).
Qed.

(** A repetition that succeeds has consumed characters of its class only. *)
Lemma star_Some_split {A} cs s (k : string → option A) m :
  re.star cs s k = Some m →
  ∃ pre rest, s = pre +:+ rest ∧ all_in cs pre = true ∧ k rest = Some m.
Proof.
  induction s as [|c s IH]; simpl.
  - intros Hk. by exists "", "".
  - destruct (re.in_charset cs c) eqn:Hc.
    + destruct (re.star cs s k) as [m'|] eqn:Hs.
      * intros [= <-]. destruct (IH eq_refl) as (pre & rest & -> & Hpre & Hk).
        exists (String c pre), rest. split_and!; [done| |done].
        by rewrite all_in_cons, Hc.
      * intros Hk. by exists "", (String c s).
    + intros Hk. by exists "", (String c s).
Qed.

Lemma star_is_Some {A} cs pre s (k : string → option A) :
  all_in cs pre = true → is_Some (k s) → is_Some (re.star cs (pre +:+ s) k).
Proof.
  intros Hpre Hk. induction pre as [|c pre IH].
  - rewrite string_app_nil. destruct s as [|c s]; simpl; [done|].
    destruct (re.in_charset cs c); [|done]. by destruct (re.star cs s k).
  - rewrite all_in_cons in Hpre. apply andb_true_iff in Hpre as [Hc Hpre].
    rewrite string_app_cons, star_cons, Hc.
    by destruct (IH Hpre) as [m ->].
Qed.

(** What a match tells about the string. *)
Lemma match_Some_inv s m :
  re.match_ trial_type_pattern s = Some m →
  ∃ pre lab post,
    s = pre +:+ "desc-" +:+ lab +:+ "_" +:+ post ∧
    all_in re.Dot pre = true ∧ all_in alnum lab = true ∧ lab ≠ "" ∧
    m = {["trial_type" := lab]}.
Proof.
  rewrite match_is_star.
  intros (pre & rest & -> & Hpre & Hseg)%star_Some_split.
  rewrite run_segment in Hseg.
  destruct (strip_prefix "desc-" rest) as [[|c s2]|] eqn:Hrest; [done| |done].
  apply strip_prefix_Some in Hrest as ->.
  destruct (re.in_charset alnum c) eqn:Hc; [|done].
  apply star_Some_split in Hseg as (x & rest2 & -> & Hx & Hk).
  destruct (strip_prefix "_" rest2) as [post|] eqn:Hrest2; [|done].
  apply strip_prefix_Some in Hrest2 as ->. injection Hk as <-.
  exists pre, (String c x), post. split_and!; [done|done| |done|].
  - by rewrite all_in_cons, Hc.
  - by rewrite <- string_app_cons, consumed_app.
Qed.

(** X5. The pattern fails on a path, so that an excluded artifact is
    reported as [UNKNOWN], exactly when the path has no segment
    [desc-<label>_] with a non-empty label of ASCII letters and digits
    before its first newline. *)
Theorem no_match_iff_no_segment path :
  re.match_ trial_type_pattern path = None ↔
  ¬ ∃ pre lab post,
      path = pre +:+ "desc-" +:+ lab +:+ "_" +:+ post ∧
      all_in re.Dot pre = true ∧ all_in alnum lab = true ∧ lab ≠ "".
Proof.
  split.
  - intros Hnone (pre & lab & post & -> & Hpre & Hlab & Hne).
    rewrite match_is_star in Hnone.
    destruct (star_is_Some re.Dot pre ("desc-" +:+ lab +:+ "_" +:+ post)
                (λ s', re.run segment s' ∅ (λ _ g, Some g)) Hpre) as [m Hm].
    + by rewrite segment_hit.
    + by rewrite Hm in Hnone.
  - intros Hno. destruct (re.match_ trial_type_pattern path) as [m|] eqn:Hm; [|done].
    destruct Hno. apply match_Some_inv in Hm as (pre & lab & post & ? & ? & ? & ? & _).
    by exists pre, lab, post.
Qed.

(** X6. The label written into an exclusion warning is never missing and
    never empty, and it consists of ASCII letters and digits only: it is
    [UNKNOWN] or the label of a [desc-<label>_] segment of the path. *)
Theorem label_is_alphanumeric path :
  ∃ lab,
    label path = Some lab ∧ all_in alnum lab = true ∧ lab ≠ "" ∧
    (lab = "UNKNOWN" ∨
     ∃ pre post, path = pre +:+ "desc-" +:+ lab +:+ "_" +:+ post ∧
                 all_in re.Dot pre = true).
Proof.
  unfold label. destruct (re.match_ trial_type_pattern path) as [m|] eqn:Hm.
  - apply match_Some_inv in Hm as (pre & lab & post & -> & Hpre & Hlab & Hne & ->).
    exists lab. rewrite lookup_singleton_eq. split_and!; [done..|].
    right. by exists pre, post.
  - exists "UNKNOWN". split_and!; [done|done|done|by left].
Qed.

(** ** Further properties of the single-subject workflow *)

Section more_workflow_facts.

Context {float metadata : Type}.

Variables (estimator : string) (atlas_img atlas_lut : option string)
  (bold_metadata_list : list metadata)
  (brainmask_list confound_tsv_list events_tsv_list : list string)
  (fir_delays : option (list Z)) (hrf_model : string) (high_pass : float)
  (name : string) (norm_betas : bool) (output_dir : string)
  (preproc_img_list : list string) (return_residuals : bool)
  (selected_confounds : option (list string)) (signal_scaling : scaling)
  (smoothing_kernel : option float).

Local Abbreviation wf :=
  (init_single_subject_wf estimator atlas_img atlas_lut bold_metadata_list
     brainmask_list confound_tsv_list events_tsv_list fir_delays hrf_model
     high_pass name norm_betas output_dir preproc_img_list return_residuals
     selected_confounds signal_scaling smoothing_kernel).
Local Abbreviation the_input_node :=
  (input_node (float:=float) atlas_img atlas_lut bold_metadata_list brainmask_list
     confound_tsv_list events_tsv_list preproc_img_list).
Local Abbreviation the_betaseries_wf :=
  (betaseries_wf (metadata:=metadata) estimator fir_delays hrf_model high_pass
     norm_betas selected_confounds signal_scaling smoothing_kernel).
Local Abbreviation the_betaseries_connections :=
  (betaseries_connections estimator atlas_img atlas_lut bold_metadata_list
     brainmask_list confound_tsv_list events_tsv_list fir_delays hrf_model
     high_pass norm_betas output_dir preproc_img_list selected_confounds
     signal_scaling smoothing_kernel).
Local Abbreviation the_connections_wf :=
  (connections_wf estimator atlas_img atlas_lut bold_metadata_list
     brainmask_list confound_tsv_list events_tsv_list fir_delays hrf_model
     high_pass name norm_betas output_dir preproc_img_list return_residuals
     selected_confounds signal_scaling smoothing_kernel).
Local Abbreviation the_wf_nodes_wf :=
  (wf_nodes_wf estimator atlas_img atlas_lut bold_metadata_list
     brainmask_list confound_tsv_list events_tsv_list fir_delays hrf_model
     high_pass name norm_betas output_dir preproc_img_list return_residuals
     selected_confounds signal_scaling smoothing_kernel).

Local Abbreviation the_steps :=
  (init_single_subject_wf_steps estimator atlas_img atlas_lut bold_metadata_list
     brainmask_list confound_tsv_list events_tsv_list fir_delays hrf_model
     high_pass name norm_betas output_dir preproc_img_list return_residuals
     selected_confounds signal_scaling smoothing_kernel).
Local Abbreviation the_built_steps :=
  (built_steps estimator atlas_img atlas_lut bold_metadata_list
     brainmask_list confound_tsv_list events_tsv_list fir_delays hrf_model
     high_pass name norm_betas output_dir preproc_img_list return_residuals
     selected_confounds signal_scaling smoothing_kernel).

Ltac both_flags :=
  destruct (truthy atlas_img && truthy atlas_lut), return_residuals.

(** X7. Whatever the atlas and the residual flag are, the workflow carries
    the name it was given, and its first four connections are those of the
    beta-series branch: the preprocessed image, events, brain mask,
    confounds and metadata of [input_node] go into the [bold_file],
    [events_file], [bold_mask_file], [confounds_file] and [bold_metadata]
    inputs of the beta-series sub-workflow, which is built with the
    estimator and the model options as given; its beta-series files go into
    the [betaseries_file] field of [output_node] and from there into the
    [in_file] of the [ds_betaseries_file] sink, a sink writing under
    [output_dir] that takes the preprocessed image as its [source_file].
    The four nodes are built and are in the workflow in every case. *)
Theorem betaseries_branch_always :
  let betaseries : node :=
    SubWorkflow (init_betaseries_wf estimator fir_delays hrf_model high_pass
                   norm_betas selected_confounds signal_scaling smoothing_kernel) in
  let sink : node :=
    MapNode (DerivativesDataSink output_dir) ["in_file"] "ds_betaseries_file" in
  wf_name wf = name ∧
  take 4 (connections wf)
  = [(the_input_node, betaseries,
        [("preproc_img", "input_node.bold_file");
         ("events_tsv", "input_node.events_file");
         ("brainmask", "input_node.bold_mask_file");
         ("confound_tsv", "input_node.confounds_file");
         ("bold_metadata", "input_node.bold_metadata")]);
     (betaseries, output_node,
        [("output_node.betaseries_files", "betaseries_file")]);
     (the_input_node, sink, [("preproc_img", "source_file")]);
     (output_node, sink, [("betaseries_file", "in_file")])] ∧
  (∀ n, n ∈ [the_input_node; betaseries; output_node; sink] →
     n ∈ wf_nodes wf ∧ n ∈ built the_steps) ∧
  (∀ n, n ∈ wf_nodes wf → node_label n = "ds_betaseries_file" → n = sink) ∧
  (∀ n, n ∈ wf_nodes wf → node_label n = "init_betaseries_wf" → n = betaseries).
Proof.
  intros betaseries sink. subst betaseries sink. split_and!.
  - unfold init_single_subject_wf. by both_flags.
  - rewrite the_connections_wf. reflexivity.
  - intros n Hn. rewrite the_wf_nodes_wf, the_built_steps. split.
    + apply elem_of_app. left.
      revert n Hn. apply Forall_forall. repeat constructor; find_elem.
    + apply elem_of_app. left.
      revert n Hn. apply Forall_forall. repeat constructor; find_elem.
  - intros n. rewrite the_wf_nodes_wf. revert n.
    refine (proj1 (Forall_forall _ _) _).
    both_flags; rewrite ?app_nil_r, ?app_nil_l;
      for_each ltac:(intros Hl; try discriminate Hl; reflexivity).
  - intros n. rewrite the_wf_nodes_wf. revert n.
    refine (proj1 (Forall_forall _ _) _).
    both_flags; rewrite ?app_nil_r, ?app_nil_l;
      for_each ltac:(intros Hl; try discriminate Hl; reflexivity).
Qed.

(** X8. An atlas given by half is ignored without a word: unless
    [atlas_img] and [atlas_lut] are both given and non-empty, the workflow
    is the one built with no atlas at all. *)
Theorem half_atlas_is_no_atlas :
  truthy atlas_img && truthy atlas_lut = false →
  wf = init_single_subject_wf estimator None None bold_metadata_list
         brainmask_list confound_tsv_list events_tsv_list fir_delays hrf_model
         high_pass name norm_betas output_dir preproc_img_list return_residuals
         selected_confounds signal_scaling smoothing_kernel.
Proof.
  intros Hno.
  unfold init_single_subject_wf, betaseries_connections, residual_connections,
    input_node.
  rewrite Hno. reflexivity.
Qed.

(** X9. Every derivatives sink of the workflow, in every configuration,
    writes under [output_dir], takes its [source_file] from the
    preprocessed image of [input_node] and its [in_file] from a field of
    [output_node]. *)
Theorem sinks_are_tagged_with_source n dir :
  n ∈ wf_nodes wf → sink_directory n = Some dir →
  dir = output_dir ∧
  (the_input_node, n, [("preproc_img", "source_file")]) ∈ connections wf ∧
  ∃ field, (output_node, n, [(field, "in_file")]) ∈ connections wf.
Proof.
  intros Hn Hdir.
  assert (dir = output_dir ∧
          (n = ds_betaseries_file output_dir ∨
           (truthy atlas_img && truthy atlas_lut = true ∧
            (n = ds_correlation_matrix output_dir ∨ n = ds_correlation_fig output_dir)) ∨
           (return_residuals = true ∧ n = ds_residual_file output_dir)))
    as [-> Hwhich].
  { revert Hdir. revert dir. rewrite the_wf_nodes_wf in Hn. revert n Hn.
    refine (proj1 (Forall_forall _ _) _).
    both_flags; rewrite ?app_nil_r, ?app_nil_l;
      for_each ltac:(
        intros d Hd; try discriminate Hd;
        injection Hd as <-; (split; [done|]);
        first [ left; reflexivity
              | right; left; split; [done|left; reflexivity]
              | right; left; split; [done|right; reflexivity]
              | right; right; split; [done|reflexivity] ]). }
  split; [done|]. rewrite the_connections_wf.
  destruct Hwhich as [->|[[-> [->| ->]]|[-> ->]]].
  - split; [|exists "betaseries_file"]; rewrite !elem_of_app; left;
      [by apply (list_elem_of_lookup_2 _ 2%nat)|by apply (list_elem_of_lookup_2 _ 3%nat)].
  - split; [|exists "correlation_matrix"]; rewrite !elem_of_app; right; left;
      [by apply (list_elem_of_lookup_2 _ 6%nat)|by apply (list_elem_of_lookup_2 _ 7%nat)].
  - split; [|exists "correlation_fig"]; rewrite !elem_of_app; right; left;
      [by apply (list_elem_of_lookup_2 _ 8%nat)|by apply (list_elem_of_lookup_2 _ 9%nat)].
  - split; [|exists "residual_file"]; rewrite !elem_of_app; right; right;
      [by apply (list_elem_of_lookup_2 _ 2%nat)|by apply (list_elem_of_lookup_2 _ 1%nat)].
Qed.

(** X10. In no configuration does an input field of a node receive two
    connections (which nipype would refuse). *)
Theorem no_port_fed_twice : NoDup (fed_ports wf).
Proof.
  unfold fed_ports. rewrite the_connections_wf.
  both_flags; by_labels.
Qed.

(** X11. The workflow has no cycle: every connection leads from a node to
    a node of a later stage, the stages being [input_node], the beta-series
    sub-workflow, [censor_volumes], [check_beta_series_list], the
    correlation sub-workflow, [output_node], and last the sinks. *)
Theorem connections_go_forward c :
  c ∈ connections wf → (stage c.1.1 < stage c.1.2)%nat.
Proof.
  rewrite the_connections_wf. revert c. refine (proj1 (Forall_forall _ _) _).
  both_flags; by_labels.
Qed.

(** X12. The correlation sub-workflow gets its beta series from the count
    filter and from nowhere else; the count filter gets its list from
    [censor_volumes] only, and [censor_volumes] its time series from the
    beta-series sub-workflow only. *)
Theorem correlation_sees_filtered_series src out dst inp :
  (src, out, dst, inp) ∈ wires wf →
  (node_label dst = "init_correlation_wf" → inp = "input_node.betaseries_files" →
     src = check_beta_series_list ∧ out = "beta_series_list") ∧
  (node_label dst = "check_beta_series_list" →
     src = censor_volumes ∧ out = "censored_file" ∧ inp = "beta_series_list") ∧
  (node_label dst = "censor_volumes" → inp = "timeseries_file" →
     src = the_betaseries_wf ∧ out = "output_node.betaseries_files").
Proof.
  unfold wires. rewrite the_connections_wf.
  intros Hw.
  change ((λ w : node * string * node * string,
             (node_label w.1.2 = "init_correlation_wf" →
              w.2 = "input_node.betaseries_files" →
              w.1.1.1 = check_beta_series_list ∧ w.1.1.2 = "beta_series_list") ∧
             (node_label w.1.2 = "check_beta_series_list" →
              w.1.1.1 = censor_volumes ∧ w.1.1.2 = "censored_file"
              ∧ w.2 = "beta_series_list") ∧
             (node_label w.1.2 = "censor_volumes" → w.2 = "timeseries_file" →
              w.1.1.1 = the_betaseries_wf ∧ w.1.1.2 = "output_node.betaseries_files"))
            (src, out, dst, inp)).
  revert Hw. generalize (src, out, dst, inp). refine (proj1 (Forall_forall _ _) _).
  both_flags;
    for_each ltac:(cbn; split_and!; intros; try discriminate; by split_and?).
Qed.

End more_workflow_facts.

(** ** Properties of [os.path.join] and of the participant workflow *)

Lemma string_app_nil_r (s : string) : s +:+ "" = s.
Proof. induction s as [|c s IH]; [done|]. by rewrite string_app_cons, IH. Qed.




Lemma string_app_inj_r (a b s : string) : a +:+ s = b +:+ s → a = b.
Proof.
  intros Heq.
  assert (String.length a = String.length b) as Hlen.
  { apply (f_equal String.length) in Heq. rewrite !string_length_app in Heq. lia. }
  revert b Heq Hlen. induction a as [|x a IH]; intros [|y b] Heq Hlen; try done.
  rewrite !string_app_cons in Heq. injection Heq as -> Heq.
  f_equal. apply IH; [done|]. simpl in Hlen. lia.
Qed.



#[local] Instance subject_wf_name_inj :
  Inj (=) (=) (λ subject_label, "single_subject" +:+ subject_label +:+ "_wf").
Proof.
  intros a b Heq. apply (inj (String.app "single_subject")) in Heq.
  by apply string_app_inj_r in Heq.
Qed.


Section add_nodes_facts.

Context {float json : Type}.

Variable build : string → @subject_wf float json.
Variable name_of : string → string.
Hypothesis wf_name_build : ∀ s, wf_name (single_subject_wf (build s)) = name_of s.
Context `{!Inj (=) (=) name_of}.








End add_nodes_facts.

Section participant_facts.

Context {float json : Type}.

Variables (nibs_ver nipype_ver pybids_ver niworkflows_ver nibabel_ver
           pandas_ver numpy_ver : string).
Variable collect_data :
  @BIDSLayout → string → option string → option string → option string →
  option string → option string → list (@run_files json).

Variables (estimator : string) (atlas_img atlas_lut : option string)
  (bids_dir : string) (database_path : option string)
  (derivatives_pipeline_dir : string) (exclude_description_label : option string)
  (fir_delays : option (list Z)) (hrf_model : string) (high_pass : float)
  (norm_betas : bool) (output_dir : string) (return_residuals : bool)
  (run_label : option string) (selected_confounds : option (list string))
  (session_label : option string) (signal_scaling : scaling)
  (smoothing_kernel : option float) (space_label : option string)
  (subject_list : list string) (task_label description_label : option string)
  (work_dir : string).

Local Abbreviation participant :=
  (init_nibetaseries_participant_wf nibs_ver nipype_ver pybids_ver
     niworkflows_ver nibabel_ver pandas_ver numpy_ver collect_data estimator
     atlas_img atlas_lut bids_dir database_path derivatives_pipeline_dir
     exclude_description_label fir_delays hrf_model high_pass norm_betas
     output_dir return_residuals run_label selected_confounds session_label
     signal_scaling smoothing_kernel space_label subject_list task_label
     description_label work_dir).

(** The layout the function opens. *)
Local Abbreviation the_layout :=
  {| root := bids_dir; derivatives := derivatives_pipeline_dir;
     index_metadata := false;
     database_file := default (os.path.join work_dir ["dbcache"]) database_path;
     reset_database := bool_decide (database_path = None) |}.


(** The single-subject workflow the loop builds for a subject. *)
Local Abbreviation the_subject_wf :=
  (λ subject_label,
     let subject_data :=
       collect_data the_layout subject_label task_label run_label session_label
         space_label description_label in
     SubjectWf
       (init_single_subject_wf estimator atlas_img atlas_lut
          (metadata <$> subject_data) (brainmask <$> subject_data)
          (confounds <$> subject_data) (events <$> subject_data)
          fir_delays hrf_model high_pass
          ("single_subject" +:+ subject_label +:+ "_wf") norm_betas
          output_dir (preproc <$> subject_data) return_residuals
          selected_confounds signal_scaling smoothing_kernel)
       (os.path.join output_dir ["nibetaseries"; "sub-" +:+ subject_label; "log"])).









(** [exclude_description_label] is accepted and never looked at. *)
Remark exclude_description_label_is_ignored (other : option string) :
  init_nibetaseries_participant_wf nibs_ver nipype_ver pybids_ver
     niworkflows_ver nibabel_ver pandas_ver numpy_ver collect_data estimator
     atlas_img atlas_lut bids_dir database_path derivatives_pipeline_dir
     other fir_delays hrf_model high_pass norm_betas
     output_dir return_residuals run_label selected_confounds session_label
     signal_scaling smoothing_kernel space_label subject_list task_label
     description_label work_dir
  = participant.
Proof. reflexivity. Qed.


End participant_facts.

(** *** The further properties at work on the example data *)

Lemma check_bs_len_fails_fast_witness :
  let images : gmap string file :=
    <["sub-01_desc-NOTES_betaseries.txt" := NotAnImage]> example_images in
  let items := [faces_file; "sub-01_desc-NOTES_betaseries.txt"; houses_file] in
  let σ := state_of items in
  let r := _check_bs_len images 0%nat σ in
  heap σ !! 0%nat = Some items ∧
  trial_count images "sub-01_desc-NOTES_betaseries.txt" = None ∧
  r.1 = Raise (ImageFileError "sub-01_desc-NOTES_betaseries.txt") ∧
  heap r.2 = heap σ ∧
  log r.2 = ["At least 3 trials are needed for a beta series: FACES has 2"].
Proof.
  intros images items σ r.
  assert (heap σ !! 0%nat
          = Some ([faces_file] ++ "sub-01_desc-NOTES_betaseries.txt" :: [houses_file]))
    as Hl by reflexivity.
  assert (trial_count images "sub-01_desc-NOTES_betaseries.txt" = None)
    as Hbad by (vm_compute; reflexivity).
  destruct (check_bs_len_fails_fast images 0%nat _ _ _ σ Hl) as (Hr & Hh & Hlog);
    [repeat constructor; eexists; vm_compute; reflexivity|exact Hbad|].
  split_and!; [exact Hl|exact Hbad| |exact Hh|].
  - etrans; [exact Hr|]. vm_compute. reflexivity.
  - etrans; [exact Hlog|]. vm_compute. reflexivity.
Defined.

(** The three ways in which reading a trial count fails: no file, a file
    that is no image, an image without dimensions. *)
Example read_errors :
  let images : gmap string file :=
    {[ houses_file := Image [4; 4; 4; 5]; "notes.txt" := NotAnImage;
       "scalar.nii.gz" := Image [] ]} in
  (_check_bs_len images 0%nat (state_of [houses_file; "lost.nii.gz"])).1
  = Raise (FileNotFoundError "lost.nii.gz") ∧
  (_check_bs_len images 0%nat (state_of [houses_file; "notes.txt"])).1
  = Raise (ImageFileError "notes.txt") ∧
  (_check_bs_len images 0%nat (state_of [houses_file; "scalar.nii.gz"])).1
  = Raise (IndexError "tuple index out of range").
Proof. split_and!; vm_compute; reflexivity. Qed.

Lemma check_bs_len_failure_is_final_witness :
  let σ := state_of [faces_file] in
  let σ' := State {[0%nat := []]}
              ["At least 3 trials are needed for a beta series: FACES has 2"] in
  _check_bs_len example_images 0%nat σ = (Raise (RuntimeError none_left_msg), σ') ∧
  _check_bs_len example_images 0%nat σ' = (Raise (RuntimeError none_left_msg), σ').
Proof.
  intros σ σ'.
  assert (_check_bs_len example_images 0%nat σ
          = (Raise (RuntimeError none_left_msg), σ')) as Hrun
    by (vm_compute; reflexivity).
  split; [exact Hrun|].
  exact (check_bs_len_failure_is_final example_images 0%nat _ σ σ' Hrun).
Defined.

Lemma check_bs_len_reads_trailing_dimension_witness :
  let flat : gmap string file :=
    {[ faces_file := Image [2]; houses_file := Image [5];
       unlabelled_file := Image [7; 1] ]} in
  let items := [houses_file; faces_file; unlabelled_file] in
  heap (state_of items) !! 0%nat = Some items ∧
  _check_bs_len flat 0%nat (state_of items)
  = _check_bs_len example_images 0%nat (state_of items).
Proof.
  intros flat items.
  assert (heap (state_of items) !! 0%nat = Some items) as Hl by reflexivity.
  split; [exact Hl|].
  apply (check_bs_len_reads_trailing_dimension example_images flat 0%nat items _ Hl).
  repeat constructor; try (eexists; vm_compute; reflexivity);
    vm_compute; reflexivity.
Defined.

Lemma half_atlas_is_no_atlas_witness :
  truthy (Some "atlas.nii.gz") && truthy None = false ∧
  sample_wf (Some "atlas.nii.gz") None true = sample_wf None None true.
Proof.
  split; [reflexivity|]. unfold sample_wf.
  by apply half_atlas_is_no_atlas.
Defined.

Lemma sinks_are_tagged_with_source_witness :
  let wf := sample_wf (Some "atlas.nii.gz") (Some "atlas.tsv") false in
  (ds_correlation_fig ".") ∈ wf_nodes wf ∧
  sink_directory (ds_correlation_fig (float:=Z) (metadata:=unit) ".") = Some "." ∧
  (∃ inp, node_label inp = "input_node" ∧
          (inp, ds_correlation_fig ".", [("preproc_img", "source_file")])
          ∈ connections wf) ∧
  ∃ field, (output_node, ds_correlation_fig ".", [(field, "in_file")])
           ∈ connections wf.
Proof.
  intros wf.
  assert ((ds_correlation_fig ".") ∈ wf_nodes wf) as Hn.
  { apply (list_elem_of_lookup_2 _ 25%nat). reflexivity. }
  destruct (sinks_are_tagged_with_source _ _ _ _ _ _ _ _ _ _ _ _ _ _ _ _ _ _ _ "."
              Hn eq_refl) as (_ & Hsrc & Hin).
  split_and!; [exact Hn|reflexivity|eexists; split; [|exact Hsrc]; reflexivity|exact Hin].
Defined.

Lemma connections_go_forward_witness :
  let wf := sample_wf (Some "atlas.nii.gz") (Some "atlas.tsv") true in
  let c : @connection Z unit :=
    (censor_volumes, check_beta_series_list, [("censored_file", "beta_series_list")]) in
  c ∈ connections wf ∧ (stage c.1.1 < stage c.1.2)%nat.
Proof.
  intros wf c.
  assert (c ∈ connections wf) as Hc.
  { apply (list_elem_of_lookup_2 _ 6%nat). reflexivity. }
  split; [exact Hc|].
  exact (connections_go_forward _ _ _ _ _ _ _ _ _ _ _ _ _ _ _ _ _ _ c Hc).
Defined.

Lemma correlation_sees_filtered_series_witness :
  let wf := sample_wf (Some "atlas.nii.gz") (Some "atlas.tsv") false in
  (check_beta_series_list, "beta_series_list", correlation_wf,
   "input_node.betaseries_files") ∈ wires wf ∧
  ∀ src out, (src, out, correlation_wf, "input_node.betaseries_files") ∈ wires wf →
             src = check_beta_series_list ∧ out = "beta_series_list".
Proof.
  intros wf. split.
  - apply (list_elem_of_lookup_2 _ 11%nat). reflexivity.
  - intros src out Hw.
    by apply (correlation_sees_filtered_series _ _ _ _ _ _ _ _ _ _ _ _ _ _ _ _ _ _
                _ _ _ _ Hw).
Defined.




(** *** Sample paths and the sample participant workflow *)

Example join_examples :
  os.path.join "/work" ["NiBetaSeries_work"] = "/work/NiBetaSeries_work" ∧
  os.path.join "/work/" ["dbcache"] = "/work/dbcache" ∧
  os.path.join "" ["nibetaseries"; "sub-01"; "log"] = "nibetaseries/sub-01/log" ∧
  os.path.join "/out" ["/tmp"; "log"] = "/tmp/log".
Proof. split_and!; reflexivity. Qed.

Example sample_participant_calls :
  (sample_participant None ["01"; "02"]).2
  = [Makedirs "/work/NiBetaSeries_work" true;
     NewBIDSLayout {| root := "/data/bids";
                      derivatives := "/data/bids/derivatives/fmriprep";
                      index_metadata := false;
                      database_file := "/work/dbcache";
                      reset_database := true |};
     IndexMetadata {| root := "/data/bids";
                      derivatives := "/data/bids/derivatives/fmriprep";
                      index_metadata := false;
                      database_file := "/work/dbcache";
                      reset_database := true |}
       ["nii"; "nii.gz"; "json"] "bold"] ∧
  (sample_participant (Some "/db") ["01"; "02"]).2
  = [Makedirs "/work/NiBetaSeries_work" true;
     NewBIDSLayout {| root := "/data/bids";
                      derivatives := "/data/bids/derivatives/fmriprep";
                      index_metadata := false;
                      database_file := "/db";
                      reset_database := false |}].
Proof. split; reflexivity. Qed.

Example sample_participant_subjects :
  ∃ pwf, (sample_participant None ["01"; "02"]).1 = Return pwf ∧
    (λ w, (wf_name (single_subject_wf w), crashdump_dir w)) <$> subject_wfs pwf
    = [("single_subject01_wf", "/out/nibetaseries/sub-01/log");
       ("single_subject02_wf", "/out/nibetaseries/sub-02/log")].
Proof. eexists. split; vm_compute; reflexivity. Qed.

(** A subject listed twice: the calls are made, and no workflow comes back. *)
Example sample_participant_repeated_subject :
  sample_participant (Some "/db") ["01"; "01"]
  = (Raise (OSError (duplicate_node_name_msg "single_subject01_wf")),
     [Makedirs "/work/NiBetaSeries_work" true;
      NewBIDSLayout {| root := "/data/bids";
                       derivatives := "/data/bids/derivatives/fmriprep";
                       index_metadata := false;
                       database_file := "/db";
                       reset_database := false |}]).
Proof. vm_compute. reflexivity. Qed.

(** A subject label is put into the crash directory as it is given: its
    [..] components stay, and the directory they lead to need not be under
    the output directory. *)
Example crash_directory_keeps_the_label :
  ∃ pwf, (sample_participant None ["x/../../../../tmp"]).1 = Return pwf ∧
    crashdump_dir <$> subject_wfs pwf
    = ["/out/nibetaseries/sub-x/../../../../tmp/log"].
Proof. eexists. split; vm_compute; reflexivity. Qed.
